(** * NWScript disassembler (src/nwscript/disassembler.cpp): the four writers

    A shallow embedding of the Disassembler class: the listing, assembly,
    GraphViz dot and NSS writers, over an explicit model of the output
    stream and of the object graph of an NCS file, followed by the
    properties of the emitted text. *)

From Stdlib Require Import String Ascii List NArith ZArith QArith Qround Lia Bool PeanoNat.
Import ListNotations.

Local Close Scope Q_scope.
Local Open Scope list_scope.
Local Open Scope string_scope.

(** ** Characters the C++ literals spell with an escape *)

Definition LF : string := String "010"%char EmptyString.
Definition TAB : string := String "009"%char EmptyString.
Definition DQUOTE : string := String "034"%char EmptyString.
Definition BACKSLASH : string := String "092"%char EmptyString.

(** ** Common::UString and Common::composeString *)

Module UString.

(** UString(c, n): n copies of the character c. *)
Fixpoint make (c : ascii) (n : nat) : string :=
  match n with
  | O => EmptyString
  | S n' => String c (make c n')
  end.

Definition empty (s : string) : bool :=
  match s with
  | EmptyString => true
  | String _ _ => false
  end.

Definition isUpper (c : ascii) : bool :=
  let n := nat_of_ascii c in (65 <=? n)%nat && (n <=? 90)%nat.

Definition lowerChar (c : ascii) : ascii :=
  if isUpper c then ascii_of_nat (nat_of_ascii c + 32) else c.

Fixpoint toLower (s : string) : string :=
  match s with
  | EmptyString => EmptyString
  | String c r => String (lowerChar c) (toLower r)
  end.

(** *** The printf subset behind UString::format

    UString::format hands its format string and its arguments to the printf
    family of the C library.  The format strings of the disassembler use the
    conversions s and X, the flags - and 0, and a decimal field width; they
    are interpreted by the rules of the C library. *)

Inductive Arg : Type :=
| AStr (s : string)
| AU32 (n : N).

Inductive Scan : Type :=
| Text
| Spec (leftAlign zeroPad : bool) (width : nat).

(** Pads s to the field width: on the right when the - flag is given, on the
    left otherwise (with zeros under the 0 flag of a numeric conversion). *)
Definition pad (leftAlign : bool) (fill : ascii) (width : nat) (s : string) : string :=
  let gap := (width - String.length s)%nat in
  if leftAlign then s ++ make " "%char gap else make fill gap ++ s.

Definition hexDigit (d : N) : ascii :=
  match d with
  | 0%N => "0" | 1%N => "1" | 2%N => "2" | 3%N => "3"
  | 4%N => "4" | 5%N => "5" | 6%N => "6" | 7%N => "7"
  | 8%N => "8" | 9%N => "9" | 10%N => "A" | 11%N => "B"
  | 12%N => "C" | 13%N => "D" | 14%N => "E" | _ => "F"
  end%char.

Definition decDigit (d : N) : ascii :=
  match d with
  | 0%N => "0" | 1%N => "1" | 2%N => "2" | 3%N => "3"
  | 4%N => "4" | 5%N => "5" | 6%N => "6" | 7%N => "7"
  | 8%N => "8" | _ => "9"
  end%char.

(** The digits of n in the given base, most significant first, without
    leading zeros; a single zero digit for 0.  A 64-bit value has at most 64
    digits in any base, which bounds the loop. *)
Fixpoint digitsFrom (digit : N -> ascii) (base : N) (fuel : nat) (n : N)
    (acc : string) : string :=
  match fuel with
  | O => acc
  | S fuel' =>
      let acc' := String (digit (n mod base)%N) acc in
      if (n / base =? 0)%N then acc' else digitsFrom digit base fuel' (n / base)%N acc'
  end.

Definition digits (digit : N -> ascii) (base : N) (n : N) : string :=
  digitsFrom digit base 64 n EmptyString.

(** The X conversion takes an unsigned int: the argument wraps at 32 bits. *)
Definition hexUpper (n : N) : string := digits hexDigit 16 (n mod 2 ^ 32)%N.

Definition isDigit (c : ascii) : bool :=
  let n := nat_of_ascii c in (48 <=? n)%nat && (n <=? 57)%nat.

Definition convert (conv : ascii) (leftAlign zeroPad : bool) (width : nat)
    (a : option Arg) : string :=
  match a with
  | Some (AStr s) =>
      if Ascii.eqb conv "s" then pad leftAlign " " width s else EmptyString
  | Some (AU32 n) =>
      if Ascii.eqb conv "X"
      then pad leftAlign (if zeroPad then "0" else " ")%char width (hexUpper n)
      else EmptyString
  | None => EmptyString
  end.

(** A format string is a sequence of literal characters and conversions. *)
Inductive Directive : Type :=
| Lit (c : ascii)
| Conv (leftAlign zeroPad : bool) (width : nat) (conv : ascii).

Fixpoint parse (st : Scan) (fmt : string) : list Directive :=
  match fmt with
  | EmptyString => []
  | String c rest =>
      match st with
      | Text =>
          if Ascii.eqb c "%" then parse (Spec false false 0) rest
          else Lit c :: parse Text rest
      | Spec l z w =>
          if Ascii.eqb c "%" then Lit c :: parse Text rest
          else if Ascii.eqb c "-" then parse (Spec true z w) rest
          else if Ascii.eqb c "0" && (w =? 0)%nat then parse (Spec l true w) rest
          else if isDigit c
          then parse (Spec l z (10 * w + (nat_of_ascii c - 48))) rest
          else Conv l z w c :: parse Text rest
      end
  end.

Fixpoint render (ds : list Directive) (args : list Arg) : string :=
  match ds with
  | [] => EmptyString
  | Lit c :: rest => String c (render rest args)
  | Conv l z w c :: rest => convert c l z w (hd_error args) ++ render rest (tl args)
  end.

Definition format (fmt : string) (args : list Arg) : string :=
  render (parse Text fmt) args.

End UString.

(** Modelled from the spec: Common::composeString (src/common/strutil.h is not
    part of the sources) renders an unsigned number in decimal, without
    thousands separators. *)
Definition composeString (n : N) : string := UString.digits UString.decDigit 10 n.

(** ** The output stream

    Common::WriteStream is used through writeString only, which appends.  The
    stream is the sequence of strings written so far, oldest first; the bytes
    on the stream are their concatenation. *)

Definition Sink : Type := list string.

Definition writeString (s : string) (out : Sink) : Sink := (out ++ [s])%list.

Definition contents (out : Sink) : string := String.concat EmptyString out.

(** A writer either returns with the stream it has extended, or it runs into
    undefined behaviour or a failed assertion (an index out of range, a null
    pointer dereferenced), or the recursion budget of the model is used up. *)
Inductive Result : Type :=
| Done (out : Sink)
| Fault
| OutOfFuel.

Definition Emit : Type := Sink -> Result.

Definition write (s : string) : Emit := fun out => Done (writeString s out).

Definition skip : Emit := fun out => Done out.

Definition fault : Emit := fun _ => Fault.

Definition andThen (e1 e2 : Emit) : Emit :=
  fun out =>
    match e1 out with
    | Done out' => e2 out'
    | Fault => Fault
    | OutOfFuel => OutOfFuel
    end.

Declare Scope emit_scope.
Delimit Scope emit_scope with emit.
Bind Scope emit_scope with Emit.
Notation "e1 ;; e2" := (andThen e1 e2)
  (at level 61, right associativity) : emit_scope.
Local Open Scope emit_scope.

(** A range-based for loop, or an iterator loop, over a container. *)
Fixpoint forEach {A : Type} (body : A -> Emit) (xs : list A) : Emit :=
  match xs with
  | [] => skip
  | x :: rest => body x ;; forEach body rest
  end.

(** for (size_t i = 0; i < n; i++) *)
Definition forUpTo (n : nat) (body : nat -> Emit) : Emit := forEach body (seq 0 n).

(** Continues with the value of a read that is undefined when it is absent. *)
Definition withSome {A : Type} (o : option A) (k : A -> Emit) : Emit :=
  match o with
  | Some a => k a
  | None => fault
  end.

(** v.back() *)
Definition back {A : Type} (v : list A) : option A := last (map Some v) None.

(** ceil on a double.  The quotients it is applied to are ratios of two
    container sizes; they are computed as exact rationals.  For sizes below
    2^53 a quotient that is not an integer lies further from the integers
    than rounding to a double moves it, so the ceiling is the same. *)
Definition ceil (x : Q) : nat := Z.to_nat (Qceiling x).

Definition toDouble (n : nat) : Q := inject_Z (Z.of_nat n).

(** ** The object graph of an NCS file

    Instructions, blocks, subroutines and variables refer to each other
    through pointers.  A pointer is a key of the store of its kind, kept in
    the NCSFile record; a pointer that may be null is an option, and following
    a null pointer is undefined.
    The enumerations and structs are declared in headers of src/nwscript that
    are not part of the sources; they carry the members the disassembler
    reads. *)

Definition InstructionPtr : Type := nat.
Definition BlockPtr : Type := nat.
Definition SubRoutinePtr : Type := nat.
Definition VariablePtr : Type := nat.

(** Aurora::GameID, an enumeration of src/aurora/types.h. *)
Definition GameID : Type := Z.

(** Modelled from the spec: the opcodes the NSS writer distinguishes; every
    other opcode of the enumeration in src/nwscript/instruction.h, which is
    not part of the sources, is kOpcodeOther with its byte code. *)
Inductive Opcode : Type :=
| kOpcodeCPDOWNSP | kOpcodeRSADD | kOpcodeCPTOPSP | kOpcodeCONST | kOpcodeACTION
| kOpcodeLOGAND | kOpcodeLOGOR | kOpcodeEQ | kOpcodeGEQ | kOpcodeGT | kOpcodeLT
| kOpcodeLEQ | kOpcodeNOT | kOpcodeCPDOWNBP | kOpcodeCPTOPBP
| kOpcodeOther (code : N).

(** Modelled from the spec: the kinds of address of an instruction. *)
Inductive AddressType : Type :=
| kAddressTypeNone
| kAddressTypeSubRoutine
| kAddressTypeJumpLabel
| kAddressTypeStateStore
| kAddressTypeTail.

(** Modelled from the spec: the types of a variable. *)
Inductive VariableType : Type :=
| kTypeVoid | kTypeInt | kTypeFloat | kTypeString | kTypeObject | kTypeVector
| kTypeEngineType (n : nat)
| kTypeOther (tag : nat).

(** Modelled from the spec: the kinds of edge between blocks, with the names
    the source gives them. *)
Inductive BlockEdgeType : Type :=
| kBlockEdgeTypeUnconditional
| kBlockEdgeTypeConditionalTrue
| kBlockEdgeTypeConditionalFalse
| kBlockEdgeTypeSubRoutineCall
| kBlockEdgeTypeSubRoutineTail
| kBlockEdgeTypeSubRoutineStore
| kBlockEdgeTypeDead.

(** Modelled from the spec: the kinds of control structure; a value outside
    the named ones, which getBlockControl renders by its default case, is
    kControlTypeUnknown. *)
Inductive ControlType : Type :=
| kControlTypeNone
| kControlTypeDoWhileHead | kControlTypeDoWhileTail | kControlTypeDoWhileNext
| kControlTypeWhileHead | kControlTypeWhileTail | kControlTypeWhileNext
| kControlTypeBreak | kControlTypeContinue | kControlTypeReturn
| kControlTypeIfCond | kControlTypeIfTrue | kControlTypeIfElse | kControlTypeIfNext
| kControlTypeUnknown (tag : nat).

(** Modelled from the spec: the kinds of subroutine; kSubRoutineTypeNone is
    the normal one. *)
Inductive SubRoutineType : Type :=
| kSubRoutineTypeNone
| kSubRoutineTypeStart
| kSubRoutineTypeGlobal
| kSubRoutineTypeStoreState.

(** Modelled from the spec: the states of the stack analysis of a
    subroutine. *)
Inductive StackAnalyzeState : Type :=
| kStackAnalyzeStateNone
| kStackAnalyzeStateStart
| kStackAnalyzeStateFinished
| kStackAnalyzeStateFailed.

(** struct Variable; the name is a keyword of Rocq. *)
Record VariableT : Type := {
  id : N;
  type : VariableType;
  creator : option InstructionPtr;
  (* std::set of Variable pointers, in iteration order *)
  siblings : list VariablePtr
}.

Record StackVariable : Type := {
  variable : VariablePtr
}.

Record Instruction : Type := {
  address : N;
  opcode : Opcode;
  (* int32 arguments; an argument that was not decoded reads as 0 *)
  args : list Z;
  addressType : AddressType;
  follower : option InstructionPtr;
  branches : list InstructionPtr;
  block : option BlockPtr;
  stack : list StackVariable;
  variables : list VariablePtr
}.

Record ControlStructure : Type := {
  ctype : ControlType;
  retn : option BlockPtr;
  ifCond : option BlockPtr;
  ifTrue : option BlockPtr;
  ifElse : option BlockPtr;
  ifNext : option BlockPtr
}.

Record Block : Type := {
  baddress : N;
  binstructions : list InstructionPtr;
  children : list BlockPtr;
  childrenTypes : list BlockEdgeType;
  subRoutine : option SubRoutinePtr;
  controls : list ControlStructure
}.

Record SubRoutine : Type := {
  saddress : N;
  sblocks : list BlockPtr;
  returns : list InstructionPtr;
  stype : SubRoutineType;
  stackAnalyzeState : StackAnalyzeState
}.

Record NCSFile : Type := {
  size : N;
  getGame : GameID;
  getInstructions : list Instruction;
  getBlocks : list Block;
  getSubRoutines : list SubRoutine;
  getGlobals : list StackVariable;
  hasStackAnalysis : bool;
  (* what the pointers of each kind point to *)
  instructionAt : InstructionPtr -> Instruction;
  blockAt : BlockPtr -> Block;
  subRoutineAt : SubRoutinePtr -> SubRoutine;
  variableAt : VariablePtr -> VariableT
}.

(** The free functions of src/nwscript/util.h and game.h the disassembler
    calls.  Their definitions are not part of the sources: the writers are
    parameterised by them. *)
Record Util : Type := {
  formatBytes : Instruction -> string;
  formatInstruction : Instruction -> GameID -> string;
  formatInstructionData : Instruction -> string;
  formatJumpLabelName : Instruction -> string;
  formatJumpLabelNameBlock : Block -> string;
  formatJumpLabelNameSub : SubRoutine -> string;
  formatJumpDestination : N -> string;
  formatSignature : SubRoutine -> string;
  formatSignatureNSS : SubRoutine -> GameID -> bool -> string;
  formatVariableName : VariableT -> string;
  (* getVariableTypeName(type, game), and the call that leaves game to its
     default argument *)
  getVariableTypeName : VariableType -> GameID -> string;
  getVariableTypeNameDefault : VariableType -> string;
  getFunctionName : GameID -> Z -> string;
  getEngineTypeCount : GameID -> nat;
  getEngineTypeName : GameID -> nat -> string;
  getGenericEngineTypeName : nat -> string;
  isSubRoutineCall : BlockEdgeType -> bool
}.

(** An index loop that reads the element at its index. *)
Fixpoint forIndexedFrom {A : Type} (i : nat) (body : nat -> A -> Emit)
    (xs : list A) : Emit :=
  match xs with
  | [] => skip
  | x :: rest => body i x ;; forIndexedFrom (S i) body rest
  end.

Definition forIndexed {A : Type} (body : nat -> A -> Emit) (xs : list A) : Emit :=
  forIndexedFrom 0 body xs.

(** v[i] = f(v[i]); undefined when i is out of range. *)
Fixpoint vectorUpdate {A : Type} (v : list A) (i : nat) (f : A -> A) : option (list A) :=
  match v, i with
  | [], _ => None
  | x :: rest, O => Some (f x :: rest)
  | x :: rest, S i' => option_map (cons x) (vectorUpdate rest i' f)
  end.

(** size_t subtraction, which wraps at 64 bits. *)
Definition sizeSub (a b : N) : N := ((a + 2 ^ 64 - b mod 2 ^ 64) mod 2 ^ 64)%N.

Definition ptrEqb (p q : option nat) : bool :=
  match p, q with
  | Some a, Some b => (a =? b)%nat
  | None, None => true
  | _, _ => false
  end.

(** ** The disassembler *)

Fixpoint quoteString (str : string) : string :=
  match str with
  | EmptyString => EmptyString
  | String c rest =>
      if Ascii.eqb c "092" then (BACKSLASH ++ BACKSLASH) ++ quoteString rest
      else if Ascii.eqb c "034" then (BACKSLASH ++ DQUOTE) ++ quoteString rest
      else String c (quoteString rest)
  end.

Definition calculateNodesPerBlock (blockSize : nat) : nat :=
  let kMaxNodeSize := 10%nat in
  ceil (toDouble blockSize / toDouble kMaxNodeSize)%Q.

Definition controlTag (t : ControlType) : string :=
  match t with
  | kControlTypeNone => "<NONE>"
  | kControlTypeDoWhileHead => "<DOWHILEHEAD>"
  | kControlTypeDoWhileTail => "<DOWHILETAIL>"
  | kControlTypeDoWhileNext => "<DOWHILENEXT>"
  | kControlTypeWhileHead => "<WHILEHEAD>"
  | kControlTypeWhileTail => "<WHILETAIL>"
  | kControlTypeWhileNext => "<WHILENEXT>"
  | kControlTypeBreak => "<BREAK>"
  | kControlTypeContinue => "<CONTINUE>"
  | kControlTypeReturn => "<RETURN>"
  | kControlTypeIfCond => "<IFCOND>"
  | kControlTypeIfTrue => "<IFTRUE>"
  | kControlTypeIfElse => "<IFELSE>"
  | kControlTypeIfNext => "<IFNEXT>"
  | kControlTypeUnknown _ => "<>"
  end.

Definition getBlockControl (b : Block) : string :=
  let control :=
    fold_left (fun control c => (control ++ controlTag (ctype c)) ++ "\n")
              (controls b) EmptyString in
  if UString.empty control then control else control ++ "\n".

(** The colour of an edge in writeDotBlockEdges. *)
Definition edgeColor (t : BlockEdgeType) : string :=
  match t with
  | kBlockEdgeTypeUnconditional => "color=blue"
  | kBlockEdgeTypeConditionalTrue => "color=green"
  | kBlockEdgeTypeConditionalFalse => "color=red"
  | kBlockEdgeTypeSubRoutineCall => "color=cyan"
  | kBlockEdgeTypeSubRoutineTail => "color=orange"
  | kBlockEdgeTypeSubRoutineStore => "color=purple"
  | kBlockEdgeTypeDead => "color=gray40"
  end.

Section Disassembler.

Variable util : Util.
Variable ncs : NCSFile.

Import UString.

Definition writeInfo : Emit :=
  write (format ("; %s bytes, %s instructions" ++ LF ++ LF)
           [AStr (composeString (size ncs));
            AStr (composeString (N.of_nat (length (getInstructions ncs))))]).

Definition writeEngineTypes : Emit :=
  let engineTypeCount := getEngineTypeCount util (getGame ncs) in
  if (0 <? engineTypeCount)%nat then
    write ("; Engine types:" ++ LF) ;;
    forUpTo engineTypeCount (fun i =>
      let name := getEngineTypeName util (getGame ncs) i in
      if empty name then skip
      else
        let gName := getGenericEngineTypeName util i in
        write (format ("; %s: %s" ++ LF) [AStr gName; AStr name])) ;;
    write LF
  else skip.

Definition getSignatureSub (sub : SubRoutine) : string :=
  if negb (hasStackAnalysis ncs) then EmptyString
  else
    match stype sub with
    | kSubRoutineTypeStart | kSubRoutineTypeGlobal | kSubRoutineTypeStoreState =>
        EmptyString
    | _ =>
        match stackAnalyzeState sub with
        | kStackAnalyzeStateFinished => formatSignature util sub
        | _ => EmptyString
        end
    end.

Definition getSignature (instr : Instruction) : string :=
  if negb (hasStackAnalysis ncs) then EmptyString
  else
    match addressType instr, block instr with
    | kAddressTypeSubRoutine, Some b =>
        match subRoutine (blockAt ncs b) with
        | Some s => getSignatureSub (subRoutineAt ncs s)
        | None => EmptyString
        end
    | _, _ => EmptyString
    end.

Definition writeJumpLabel (instr : Instruction) : Emit :=
  let jumpLabel := formatJumpLabelName util instr in
  let jumpLabel :=
    if negb (empty jumpLabel) then
      let jumpLabel := jumpLabel ++ ":" in
      let signature := getSignature instr in
      if negb (empty signature) then jumpLabel ++ (" ; " ++ signature) else jumpLabel
    else jumpLabel in
  if negb (empty jumpLabel) then write (jumpLabel ++ LF) else skip.

Definition siblingList (var : VariableT) : string :=
  let siblings :=
    fold_left (fun siblings sib =>
                 (if negb (empty siblings) then siblings ++ "," else siblings)
                 ++ composeString (id (variableAt ncs sib)))
              (siblings var) EmptyString in
  if negb (empty siblings) then " (" ++ siblings ++ ")" else siblings.

Definition writeStack (instr : Instruction) (indent : nat) : Emit :=
  let stackSize := composeString (N.of_nat (length (stack instr))) in
  write (make " " indent) ;;
  write (format ("; .--- Stack: %4s ---" ++ LF) [AStr stackSize]) ;;
  forIndexed (fun s slot =>
    let var := variableAt ncs (variable slot) in
    let siblings := siblingList var in
    let stackIndex := composeString (N.of_nat s) in
    let stackID := composeString (id var) in
    write (make " " indent) ;;
    write (format ("; | %4s - %6s: %-8s (%08X)%s" ++ LF)
             [AStr stackIndex; AStr stackID;
              AStr (toLower (getVariableTypeName util (type var) (getGame ncs)));
              AU32 (match creator var with
                    | Some c => address (instructionAt ncs c)
                    | None => 0%N
                    end);
              AStr siblings])) (stack instr) ;;
  write (make " " indent) ;;
  write ("; '--- ---------- ---" ++ LF).

Definition listingLine (i : Instruction) : string :=
  format ("  %08X %-26s %s" ++ LF)
    [AU32 (address i); AStr (formatBytes util i);
     AStr (formatInstruction util i (getGame ncs))].

Definition createListing (printStack : bool) : Emit :=
  writeInfo ;;
  writeEngineTypes ;;
  forEach (fun i =>
    writeJumpLabel i ;;
    (if hasStackAnalysis ncs && printStack then writeStack i 36 else skip) ;;
    write (listingLine i) ;;
    match follower i with
    | None => write ("  -------- -------------------------- ---" ++ LF)
    | Some _ => skip
    end) (getInstructions ncs).

Definition createAssembly (printStack : bool) : Emit :=
  writeInfo ;;
  writeEngineTypes ;;
  forEach (fun i =>
    writeJumpLabel i ;;
    (if hasStackAnalysis ncs && printStack then writeStack i 0 else skip) ;;
    write (format ("  %s" ++ LF) [AStr (formatInstruction util i (getGame ncs))]) ;;
    match follower i with
    | None => write LF
    | Some _ => skip
    end) (getInstructions ncs).

(** *** GraphViz dot *)

(** The labels of the nodes a block is divided into.  Undefined for a block
    without instructions: the labels vector is empty, linesPerNode is the
    ceiling of 0 / 0.0, and labels[0] is written. *)
Definition dotLabels (printControlTypes : bool) (b : Block) : option (list string) :=
  let count := length (binstructions b) in
  let nodeCount := calculateNodesPerBlock count in
  let labels := repeat EmptyString nodeCount in
  if (length labels =? 0)%nat then None
  else
    let linesPerNode := ceil (toDouble count / toDouble (length labels))%Q in
    let control := if printControlTypes then getBlockControl b else EmptyString in
    let name := formatJumpLabelNameBlock util b in
    let name :=
      if empty name
      then option_map (fun front => formatJumpDestination util (address (instructionAt ncs front)))
                      (hd_error (binstructions b))
      else Some name in
    match name with
    | None => None
    | Some name =>
        match vectorUpdate labels 0 (fun _ => control ++ (name ++ ":\l")) with
        | None => None
        | Some labels =>
            fold_left
              (fun labels (entry : nat * InstructionPtr) =>
                 let (i, ip) := entry in
                 match labels with
                 | None => None
                 | Some labels =>
                     if (linesPerNode =? 0)%nat then None
                     else
                       vectorUpdate labels (i / linesPerNode) (fun l =>
                         l ++ ("  "
                               ++ quoteString (formatInstruction util (instructionAt ncs ip)
                                                                 (getGame ncs))
                               ++ "\l"))
                 end)
              (combine (seq 0 count) (binstructions b)) (Some labels)
        end
    end.

Definition dotNodeName (b : Block) (i : nat) : string :=
  format "b%08X_%s" [AU32 (baddress b); AStr (composeString (N.of_nat i))].

Definition writeDotBlock (printControlTypes : bool) (b : Block) : Emit :=
  withSome (dotLabels printControlTypes b) (fun labels =>
    (* Nodes *)
    forIndexed (fun i label =>
      let name := dotNodeName b i in
      write (format ("    " ++ DQUOTE ++ "%s" ++ DQUOTE ++ " ") [AStr name]) ;;
      write ("[ shape=" ++ DQUOTE ++ "box" ++ DQUOTE ++ " label=" ++ DQUOTE
             ++ label ++ DQUOTE ++ " ]" ++ LF)) labels ;;
    (* Edges between the divided block nodes *)
    if (1 <? length labels)%nat then
      forUpTo (length labels) (fun i =>
        write (if (i =? 0)%nat then "    " else " -> ") ;;
        write (dotNodeName b i)) ;;
      write (" [ style=dotted ]" ++ LF)
    else skip).

Fixpoint writeDotBlocks (printControlTypes : bool) (blocks : list BlockPtr) : Emit :=
  match blocks with
  | [] => skip
  | b :: rest =>
      writeDotBlock printControlTypes (blockAt ncs b) ;;
      (* b != --blocks.end() *)
      match rest with
      | [] => skip
      | _ :: _ => write LF
      end ;;
      writeDotBlocks printControlTypes rest
  end.

Definition writeDotClusteredBlocks (printControlTypes : bool) : Emit :=
  forEach (fun s =>
    match sblocks s with
    | [] => skip
    | front :: _ =>
        if (length (binstructions (blockAt ncs front)) =? 0)%nat then skip
        else
          write (format ("  subgraph cluster_s%08X {" ++ LF
                         ++ "    style=filled" ++ LF
                         ++ "    color=lightgrey" ++ LF) [AU32 (saddress s)]) ;;
          let clusterLabel := getSignatureSub s in
          let clusterLabel :=
            if empty clusterLabel then formatJumpLabelNameSub util s else clusterLabel in
          let clusterLabel :=
            if empty clusterLabel then formatJumpDestination util (saddress s)
            else clusterLabel in
          write (format ("    label=" ++ DQUOTE ++ "%s" ++ DQUOTE ++ LF ++ LF)
                   [AStr clusterLabel]) ;;
          writeDotBlocks printControlTypes (sblocks s) ;;
          write ("  }" ++ LF ++ LF)
    end) (getSubRoutines ncs).

(** The attributes of the edge from b to child, of type t. *)
Definition edgeAttr (b child : Block) (t : BlockEdgeType) : string :=
  let attr := edgeColor t in
  let attr := if (baddress child <? baddress b)%N then attr ++ " style=bold" else attr in
  if negb (ptrEqb (subRoutine b) (subRoutine child))
  then attr ++ " constraint=false" else attr.

Definition writeDotBlockEdge (b : Block) (i : nat) : Emit :=
  withSome (nth_error (children b) i) (fun cp =>
    let child := blockAt ncs cp in
    let lastIndex :=
      sizeSub (N.of_nat (calculateNodesPerBlock (length (binstructions b)))) 1 in
    write (format "  b%08X_%s -> b%08X_0"
             [AU32 (baddress b); AStr (composeString lastIndex); AU32 (baddress child)]) ;;
    withSome (nth_error (childrenTypes b) i) (fun t =>
      write (" [ " ++ edgeAttr b child t ++ " ]" ++ LF))).

Definition writeDotBlockEdges : Emit :=
  forEach (fun b =>
    (* assert(b->children.size() == b->childrenTypes.size()) *)
    if (length (children b) =? length (childrenTypes b))%nat
    then forUpTo (length (children b)) (writeDotBlockEdge b)
    else fault) (getBlocks ncs).

Definition createDot (printControlTypes : bool) : Emit :=
  write ("digraph {" ++ LF) ;;
  write ("  overlap=false" ++ LF) ;;
  write ("  concentrate=true" ++ LF) ;;
  write ("  splines=ortho" ++ LF ++ LF) ;;
  writeDotClusteredBlocks printControlTypes ;;
  writeDotBlockEdges ;;
  write ("}" ++ LF).

(** *** NSS *)

Definition writeNSSIndent (indent : nat) : Emit :=
  forUpTo indent (fun _ => write TAB).

(** instruction->variables[i], dereferenced *)
Definition variableOf (instruction : Instruction) (i : nat) (k : VariableT -> Emit) : Emit :=
  withSome (nth_error (variables instruction) i) (fun v => k (variableAt ncs v)).

(** The comparison and logic opcodes: result = v1 op v2. *)
Definition writeNSSBinary (instruction : Instruction) (indent : nat) (op : string) : Emit :=
  variableOf instruction 0 (fun v1 =>
  variableOf instruction 1 (fun v2 =>
  variableOf instruction 2 (fun result =>
    writeNSSIndent indent ;;
    write (getVariableTypeName util (type result) (getGame ncs) ++ " "
           ++ formatVariableName util result ++ " = "
           ++ formatVariableName util v1 ++ op ++ formatVariableName util v2
           ++ ";" ++ LF)))).

Definition writeNSSInstruction (instruction : Instruction) (indent : nat) : Emit :=
  match opcode instruction with
  | kOpcodeCONST =>
      variableOf instruction 0 (fun v =>
        writeNSSIndent indent ;;
        write (getVariableTypeNameDefault util (type v) ++ " " ++ formatVariableName util v
               ++ " = " ++ formatInstructionData util instruction ++ ";" ++ LF))
  | kOpcodeACTION =>
      (* unsigned int paramCount = instruction->args[1] *)
      let paramCount := Z.to_nat (nth 1 (args instruction) 0%Z mod 2 ^ 32) in
      writeNSSIndent indent ;;
      (if (paramCount <? length (variables instruction))%nat then
         withSome (back (variables instruction)) (fun r =>
           let ret := variableAt ncs r in
           write (getVariableTypeName util (type ret) (getGame ncs) ++ " "
                  ++ formatVariableName util ret ++ " = "))
       else skip) ;;
      write (getFunctionName util (getGame ncs) (nth 0 (args instruction) 0%Z)) ;;
      write "(" ;;
      forUpTo paramCount (fun i =>
        variableOf instruction i (fun v =>
          write (formatVariableName util v) ;;
          if (i <? paramCount - 1)%nat then write ", " else skip)) ;;
      write (");" ++ LF)
  | kOpcodeCPDOWNBP | kOpcodeCPDOWNSP | kOpcodeCPTOPBP | kOpcodeCPTOPSP =>
      variableOf instruction 0 (fun v1 =>
      variableOf instruction 1 (fun v2 =>
        writeNSSIndent indent ;;
        write (getVariableTypeName util (type v2) (getGame ncs) ++ " "
               ++ formatVariableName util v2 ++ " = " ++ formatVariableName util v1
               ++ ";" ++ LF)))
  | kOpcodeLOGAND => writeNSSBinary instruction indent " && "
  | kOpcodeLOGOR => writeNSSBinary instruction indent " || "
  | kOpcodeEQ => writeNSSBinary instruction indent " == "
  | kOpcodeLEQ => writeNSSBinary instruction indent " <= "
  | kOpcodeLT => writeNSSBinary instruction indent " < "
  | kOpcodeGEQ => writeNSSBinary instruction indent " >= "
  | kOpcodeGT => writeNSSBinary instruction indent " > "
  | kOpcodeNOT =>
      variableOf instruction 0 (fun v =>
      variableOf instruction 2 (fun result =>
        writeNSSIndent indent ;;
        write (getVariableTypeName util (type result) (getGame ncs) ++ " "
               ++ formatVariableName util result ++ " = "
               ++ "!" ++ formatVariableName util v ++ ";" ++ LF)))
  | kOpcodeRSADD =>
      variableOf instruction 0 (fun v =>
        writeNSSIndent indent ;;
        write (getVariableTypeName util (type v) (getGame ncs) ++ " "
               ++ formatVariableName util v ++ " = ") ;;
        match type v with
        | kTypeString => write (DQUOTE ++ DQUOTE)
        | kTypeInt => write "0"
        | kTypeFloat => write "0.0"
        | _ => write "0"
        end ;;
        write (";" ++ LF))
  | kOpcodeOther _ => skip
  end.

(** The body of the loop over block->childrenTypes in writeNSSBlock; self is
    the recursive call of writeNSSBlock. *)
Definition writeNSSCall (self : BlockPtr -> nat -> Emit) (b : Block) (indent : nat)
    (childType : BlockEdgeType) : Emit :=
  if isSubRoutineCall util childType then
    writeNSSIndent indent ;;
    withSome (back (binstructions b)) (fun ip =>
      let instruction := instructionAt ncs ip in
      withSome (nth_error (branches instruction) 0) (fun target =>
        write (formatJumpLabelName util (instructionAt ncs target)) ;;
        write "(" ;;
        forIndexed (fun i v =>
          write (formatVariableName util (variableAt ncs v)) ;;
          if (i <? length (variables instruction) - 1)%nat then write ", " else skip)
          (variables instruction) ;;
        write (");" ++ LF) ;;
        withSome (nth_error (children b) 1) (fun child => self child indent)))
  else skip.

(** The return statement of a block with a Return control structure. *)
Definition writeNSSReturn (control : ControlStructure) : Emit :=
  withSome (retn control) (fun rp =>
    let r := blockAt ncs rp in
    if (0 <? length (binstructions r))%nat then
      withSome (back (binstructions r)) (fun lastp =>
        if (length (stack (instructionAt ncs lastp)) =? 0)%nat then write ("return;" ++ LF)
        else
          write "return " ;;
          withSome (nth_error (binstructions r) 0) (fun firstp =>
            variableOf (instructionAt ncs firstp) 0 (fun v =>
              write (formatVariableName util v))) ;;
          write (";" ++ LF))
    else write ("return;" ++ LF)).

Definition writeNSSIfBlockWith (self : BlockPtr -> nat -> Emit)
    (control : ControlStructure) (indent : nat) : Emit :=
  writeNSSIndent indent ;;
  withSome (ifCond control) (fun cp =>
    withSome (back (binstructions (blockAt ncs cp))) (fun lastp =>
      variableOf (instructionAt ncs lastp) 0 (fun cond =>
        write "if (" ;;
        write (formatVariableName util cond) ;;
        write (") {" ++ LF) ;;
        match ifTrue control with
        | Some t => self t (indent + 1)%nat
        | None => skip
        end ;;
        writeNSSIndent indent ;;
        write "}" ;;
        match ifElse control with
        | Some e =>
            write (" else {" ++ LF) ;;
            self e (indent + 1)%nat ;;
            writeNSSIndent indent ;;
            write "}"
        | None => skip
        end ;;
        write LF ;;
        match ifNext control with
        | Some n => self n indent
        | None => skip
        end))).

(** The body of the loop over block->controls in writeNSSBlock. *)
Definition writeNSSControl (self : BlockPtr -> nat -> Emit)
    (control : ControlStructure) (indent : nat) : Emit :=
  match ctype control with
  | kControlTypeReturn => writeNSSIndent indent ;; writeNSSReturn control
  | kControlTypeIfCond => writeNSSIfBlockWith self control indent
  | _ => skip
  end.

(** writeNSSBlock and writeNSSIfBlock call each other, along pointers of the
    control-flow graph; fuel bounds the depth of the calls. *)
Fixpoint writeNSSBlock (fuel : nat) (block : BlockPtr) (indent : nat) : Emit :=
  match fuel with
  | O => fun _ => OutOfFuel
  | S fuel' =>
      let b := blockAt ncs block in
      forEach (fun ip => writeNSSInstruction (instructionAt ncs ip) indent)
              (binstructions b) ;;
      forEach (writeNSSCall (writeNSSBlock fuel') b indent) (childrenTypes b) ;;
      forEach (fun control => writeNSSControl (writeNSSBlock fuel') control indent)
              (controls b)
  end.

Definition writeNSSIfBlock (fuel : nat) (control : ControlStructure) (indent : nat) : Emit :=
  writeNSSIfBlockWith (writeNSSBlock fuel) control indent.

Definition writeNSSSubRoutine (fuel : nat) (subRoutine : SubRoutine) : Emit :=
  write (LF ++ LF) ;;
  write (formatSignatureNSS util subRoutine (getGame ncs) true) ;;
  write (" {" ++ LF) ;;
  (* assert(subRoutine.returns.size() <=1) *)
  (if (length (returns subRoutine) <=? 1)%nat then
     withSome (nth_error (sblocks subRoutine) 0) (fun entry =>
       writeNSSBlock fuel entry 1)
   else fault) ;;
  write "}".

Definition createNSS (fuel : nat) : Emit :=
  write "// Decompiled using ncsdis" ;;
  write (LF ++ LF) ;;
  forEach (fun global =>
    let var := variableAt ncs (variable global) in
    write (getVariableTypeName util (type var) (getGame ncs)) ;;
    write (" " ++ formatVariableName util var) ;;
    write (composeString (id var)) ;;
    write LF) (getGlobals ncs) ;;
  forEach (writeNSSSubRoutine fuel) (getSubRoutines ncs).

End Disassembler.

(** ** Descriptions of what a writer does *)

(** The writer e returns, having appended the writes w. *)
Definition Writes (e : Emit) (w : list string) : Prop :=
  forall out, e out = Done (out ++ w)%list.

(** The outcome of e does not depend on what the stream holds already. *)
Definition Framed (e : Emit) : Prop :=
  forall out,
    e out = match e [] with
            | Done w => Done (out ++ w)%list
            | Fault => Fault
            | OutOfFuel => OutOfFuel
            end.

(** [indexedFrom i f xs] collects f i x0, f (i+1) x1, ... *)
Fixpoint indexedFrom {A B : Type} (i : nat) (f : nat -> A -> list B) (xs : list A) : list B :=
  match xs with
  | [] => []
  | x :: rest => (f i x ++ indexedFrom (S i) f rest)%list
  end.

(** Two runs of a writer, on two streams, have the same outcome: both return
    having appended the same writes, or both run into undefined behaviour, or
    both use up the recursion budget. *)
Definition SameOutcome (e : Emit) : Prop :=
  forall out1 out2,
    (exists w, e out1 = Done (out1 ++ w)%list /\ e out2 = Done (out2 ++ w)%list)
    \/ (e out1 = Fault /\ e out2 = Fault)
    \/ (e out1 = OutOfFuel /\ e out2 = OutOfFuel).

(** Spaces before the text, up to the field width. *)
Definition leftPadded (width : nat) (s : string) : string :=
  UString.make " " (width - String.length s) ++ s.

(** Spaces after the text, up to the field width. *)
Definition rightPadded (width : nat) (s : string) : string :=
  s ++ UString.make " " (width - String.length s).

(** An address in upper-case hexadecimal, filled with zeros to 8 digits. *)
Definition hex8 (a : N) : string :=
  UString.make "0" (8 - String.length (UString.hexUpper a)) ++ UString.hexUpper a.

Section Descriptions.

Variable util : Util.
Variable ncs : NCSFile.

Definition banner : string :=
  "; " ++ composeString (size ncs) ++ " bytes, "
  ++ composeString (N.of_nat (length (getInstructions ncs))) ++ " instructions" ++ LF ++ LF.

Definition engineTypeLegend : list string :=
  let count := getEngineTypeCount util (getGame ncs) in
  if (0 <? count)%nat then
    ("; Engine types:" ++ LF)
    :: app (flat_map (fun i =>
              let name := getEngineTypeName util (getGame ncs) i in
              if UString.empty name then []
              else ["; " ++ getGenericEngineTypeName util i ++ ": " ++ name ++ LF])
              (seq 0 count))
           [LF]
  else [].

(** The label line of an instruction, when the instruction has a label. *)
Definition jumpLabelLine (i : Instruction) : list string :=
  let name := formatJumpLabelName util i in
  if UString.empty name then []
  else
    let signature := getSignature util ncs i in
    [name ++ ":" ++ (if UString.empty signature then EmptyString else " ; " ++ signature)
     ++ LF].

(** The label line without a signature. *)
Definition plainLabelLine (i : Instruction) : list string :=
  let name := formatJumpLabelName util i in
  if UString.empty name then [] else [name ++ ":" ++ LF].

(** What the listing and the assembly write for one instruction when they
    dump no stack: the label line, the disassembly line, and the separator
    after an instruction without follower. *)
Definition plainInstruction (line : Instruction -> string) (separator : string)
    (i : Instruction) : list string :=
  app (plainLabelLine i)
      (line i :: match follower i with
                 | None => [separator]
                 | Some _ => []
                 end).

Definition assemblyLine (i : Instruction) : string :=
  "  " ++ formatInstruction util i (getGame ncs) ++ LF.

Definition listingSeparator : string := "  -------- -------------------------- ---" ++ LF.

End Descriptions.

(** The writes of a writer that returns. *)
Definition writesOf (e : Emit) : list string :=
  match e [] with
  | Done w => w
  | Fault | OutOfFuel => []
  end.

(** The disassembly line of createListing, as the specification words it: the
    bytes column filled with spaces on its left. *)
Definition listingLineLeftPadded (util : Util) (ncs : NCSFile) (i : Instruction) : string :=
  "  " ++ hex8 (address i) ++ " " ++ leftPadded 26 (formatBytes util i) ++ " "
  ++ formatInstruction util i (getGame ncs) ++ LF.

(** The first line of a stack dump, as the specification words it: the depth
    followed by spaces. *)
Definition stackHeadRightPadded (i : Instruction) : string :=
  "; .--- Stack: " ++ rightPadded 4 (composeString (N.of_nat (length (stack i))))
  ++ " ---" ++ LF.

(** The name of the i-th node of a block in the dot graph. *)
Definition dotName (b : Block) (i : nat) : string :=
  "b" ++ hex8 (baddress b) ++ "_" ++ composeString (N.of_nat i).

(** The statement of one node: its quoted name, then its attributes. *)
Definition nodeStatement (b : Block) (i : nat) (label : string) : list string :=
  [ "    " ++ DQUOTE ++ dotName b i ++ DQUOTE ++ " ";
    "[ shape=" ++ DQUOTE ++ "box" ++ DQUOTE ++ " label=" ++ DQUOTE ++ label ++ DQUOTE
    ++ " ]" ++ LF ].

Definition dottedAttribute : string := " [ style=dotted ]" ++ LF.

Definition arrow : string := " -> ".

(** The line that chains the n nodes of a divided block. *)
Definition subdivisionEdge (b : Block) (n : nat) : list string :=
  app (flat_map (fun i => [if (i =? 0)%nat then "    " else arrow; dotName b i]) (seq 0 n))
      [dottedAttribute].

(** What writeDotBlocks writes for a block whose nodes carry the given labels. *)
Definition blockStatements (b : Block) (labels : list string) : list string :=
  app (indexedFrom 0 (nodeStatement b) labels)
      (if (1 <? length labels)%nat then subdivisionEdge b (length labels) else []).




(** The colour of each kind of edge. *)
Definition colorName (t : BlockEdgeType) : string :=
  match t with
  | kBlockEdgeTypeUnconditional => "blue"
  | kBlockEdgeTypeConditionalTrue => "green"
  | kBlockEdgeTypeConditionalFalse => "red"
  | kBlockEdgeTypeSubRoutineCall => "cyan"
  | kBlockEdgeTypeSubRoutineTail => "orange"
  | kBlockEdgeTypeSubRoutineStore => "purple"
  | kBlockEdgeTypeDead => "gray40"
  end.

(** The attributes of an edge of kind t: its colour, then the bold style of
    an edge that goes backward, then the lifted rank constraint of an edge
    that crosses subroutines. *)
Definition edgeAttributes (t : BlockEdgeType) (backward crossing : bool) : string :=
  "color=" ++ colorName t
  ++ (if backward then " style=bold" else EmptyString)
  ++ (if crossing then " constraint=false" else EmptyString).

(** The writer e returns or runs into undefined behaviour: it does not use up
    the recursion budget. *)
Definition Bounded (e : Emit) : Prop := forall out, e out <> OutOfFuel.

(** The indentation of an NSS line: one tab per level. *)
Definition tabs (indent : nat) : list string := repeat TAB indent.

(** The call statement of a block that ends in a subroutine call:
    the label of the callee and the names of the variables of the calling
    instruction, separated by commas. *)
Definition callStatement (util : Util) (ncs : NCSFile) (instruction target : Instruction)
    (indent : nat) : list string :=
  app (tabs indent)
      (formatJumpLabelName util target
       :: "("
       :: app (indexedFrom 0
                 (fun i v =>
                    formatVariableName util (variableAt ncs v)
                    :: if (i <? length (variables instruction) - 1)%nat then [", "] else [])
                 (variables instruction))
              [");" ++ LF]).

(** Wherever e does not use up the recursion budget, e' has the outcome of e. *)
Definition Extends (e e' : Emit) : Prop :=
  forall out, e out <> OutOfFuel -> e' out = e out.

(** ** Descriptions for the further properties *)

(** Reads a quoted string back: a backslash stands for the character after
    it. *)
Fixpoint unquote (s : string) : string :=
  match s with
  | EmptyString => EmptyString
  | String c rest =>
      if Ascii.eqb c "092" then
        match rest with
        | EmptyString => EmptyString
        | String d rest' => String d (unquote rest')
        end
      else String c (unquote rest)
  end.

(** Every quotation mark of s follows a backslash that escapes it, and every
    backslash escapes a character. *)
Fixpoint escaped (s : string) : bool :=
  match s with
  | EmptyString => true
  | String c rest =>
      if Ascii.eqb c "092" then
        match rest with
        | EmptyString => false
        | String _ rest' => escaped rest'
        end
      else if Ascii.eqb c "034" then false
      else escaped rest
  end.

(** The tags of a list of control structures, each followed by the two
    characters backslash and n. *)
Fixpoint controlLines (cs : list ControlStructure) : string :=
  match cs with
  | [] => EmptyString
  | c :: rest => controlTag (ctype c) ++ "\n" ++ controlLines rest
  end.

(** The label line of a block in its first node: the jump label of the block,
    or the jump destination of its first instruction. *)
Definition blockHeadLine (util : Util) (ncs : NCSFile) (b : Block) : string :=
  (if UString.empty (formatJumpLabelNameBlock util b)
   then match binstructions b with
        | [] => EmptyString
        | front :: _ => formatJumpDestination util (address (instructionAt ncs front))
        end
   else formatJumpLabelNameBlock util b) ++ ":\l".

(** The lines of the instructions of a block in the labels of its nodes. *)
Fixpoint instructionLines (util : Util) (ncs : NCSFile) (ips : list InstructionPtr) : string :=
  match ips with
  | [] => EmptyString
  | ip :: rest =>
      ("  " ++ quoteString (formatInstruction util (instructionAt ncs ip) (getGame ncs))
       ++ "\l") ++ instructionLines util ncs rest
  end.

(** Lists of writes, with a separating write between two of them. *)
Fixpoint separated (sep : string) (ls : list (list string)) : list string :=
  match ls with
  | [] => []
  | l :: rest =>
      match rest with
      | [] => l
      | _ :: _ => app l (sep :: separated sep rest)
      end
  end.

(** The program with another list of subroutines. *)
Definition withSubRoutines (ncs : NCSFile) (subs : list SubRoutine) : NCSFile :=
  {| size := size ncs; getGame := getGame ncs; getInstructions := getInstructions ncs;
     getBlocks := getBlocks ncs; getSubRoutines := subs; getGlobals := getGlobals ncs;
     hasStackAnalysis := hasStackAnalysis ncs;
     instructionAt := instructionAt ncs; blockAt := blockAt ncs;
     subRoutineAt := subRoutineAt ncs; variableAt := variableAt ncs |}.

(** The subroutine has a first block, and this block has instructions. *)
Definition hasEntryCode (ncs : NCSFile) (s : SubRoutine) : bool :=
  match sblocks s with
  | [] => false
  | front :: _ => negb (length (binstructions (blockAt ncs front)) =? 0)%nat
  end.

(** The writer e returns on every stream, with the same writes. *)
Definition Returns (e : Emit) : Prop := exists w, Writes e w.

(** unsigned int paramCount = instruction->args[1] *)
Definition paramCountOf (i : Instruction) : nat :=
  Z.to_nat (nth 1 (args i) 0%Z mod 2 ^ 32).

(** The number of variables the NSS writer reads from an instruction. *)
Definition variablesRead (i : Instruction) : nat :=
  match opcode i with
  | kOpcodeCONST | kOpcodeRSADD => 1
  | kOpcodeACTION => paramCountOf i
  | kOpcodeCPDOWNBP | kOpcodeCPDOWNSP | kOpcodeCPTOPBP | kOpcodeCPTOPSP => 2
  | kOpcodeLOGAND | kOpcodeLOGOR | kOpcodeEQ | kOpcodeLEQ | kOpcodeLT | kOpcodeGEQ
  | kOpcodeGT | kOpcodeNOT => 3
  | kOpcodeOther _ => 0
  end%nat.

(** The writes, and the text, of the body of a branch that may be absent. *)
Definition optionalBody (body : BlockPtr -> nat -> list string) (o : option BlockPtr)
    (n : nat) : list string :=
  match o with
  | Some bp => body bp n
  | None => []
  end.

(** The if statement of an IfCond control structure, given what the writer
    writes for the blocks it goes on to. *)
Definition ifStatement (util : Util) (body : BlockPtr -> nat -> list string)
    (control : ControlStructure) (indent : nat) (cond : VariableT) : list string :=
  app (tabs indent)
      ("if (" :: formatVariableName util cond :: (") {" ++ LF)
       :: app (optionalBody body (ifTrue control) (indent + 1))
            (app (tabs indent)
               ("}" :: app match ifElse control with
                           | Some e =>
                               (" else {" ++ LF)
                               :: app (body e (indent + 1)%nat) (app (tabs indent) ["}"])
                           | None => []
                           end
                           (LF :: optionalBody body (ifNext control) indent)))).

(** The line of a stack dump for the slot at index s. *)
Definition stackSlotLine (util : Util) (ncs : NCSFile) (s : nat) (slot : StackVariable) : string :=
  let var := variableAt ncs (variable slot) in
  "; | " ++ leftPadded 4 (composeString (N.of_nat s)) ++ " - "
  ++ leftPadded 6 (composeString (id var)) ++ ": "
  ++ rightPadded 8 (UString.toLower (getVariableTypeName util (type var) (getGame ncs)))
  ++ " ("
  ++ hex8 match creator var with
          | Some c => address (instructionAt ncs c)
          | None => 0%N
          end
  ++ ")" ++ siblingList ncs var ++ LF.

(** The stack dump of an instruction: head, one line per slot, foot, each
    after the indentation. *)
Definition stackDump (util : Util) (ncs : NCSFile) (i : Instruction) (indent : nat) :
    list string :=
  UString.make " " indent
  :: ("; .--- Stack: " ++ leftPadded 4 (composeString (N.of_nat (length (stack i))))
      ++ " ---" ++ LF)
  :: app (indexedFrom 0 (fun s slot => [UString.make " " indent; stackSlotLine util ncs s slot])
            (stack i))
       [UString.make " " indent; "; '--- ---------- ---" ++ LF].

(** The subroutine has no signature in the listing by its kind. *)
Definition unsignedKind (t : SubRoutineType) : bool :=
  match t with
  | kSubRoutineTypeStart | kSubRoutineTypeGlobal | kSubRoutineTypeStoreState => true
  | kSubRoutineTypeNone => false
  end.

(** The opening and the closing of the dot graph. *)
Definition dotOpening : list string :=
  ["digraph {" ++ LF; "  overlap=false" ++ LF; "  concentrate=true" ++ LF;
   "  splines=ortho" ++ LF ++ LF].

Definition dotClosing : list string := ["}" ++ LF].

(** ** Descriptions of the whole dot graph and of return statements *)

(** createDot is defined on the program: every block listed in a subroutine
    that is not skipped has instructions, and the children of every block
    pair up with their edge types. *)
Definition dotDefined (ncs : NCSFile) : Prop :=
  (forall s bp, In s (getSubRoutines ncs) -> hasEntryCode ncs s = true ->
                In bp (sblocks s) -> (1 <= length (binstructions (blockAt ncs bp)))%nat)
  /\ (forall b, In b (getBlocks ncs) -> length (children b) = length (childrenTypes b)).





Section DotGraphDescription.

Variable util : Util.
Variable ncs : NCSFile.
Variable printControlTypes : bool.

(** The node statements of a block, and the line between its nodes. *)
Definition blockWrites (b : Block) : list string :=
  match dotLabels util ncs printControlTypes b with
  | Some labels => blockStatements b labels
  | None => []
  end.

Definition clusterLabel (s : SubRoutine) : string :=
  let label := getSignatureSub util ncs s in
  let label := if UString.empty label then formatJumpLabelNameSub util s else label in
  if UString.empty label then formatJumpDestination util (saddress s) else label.

(** The cluster of a subroutine; nothing for a subroutine that is skipped. *)
Definition clusterWrites (s : SubRoutine) : list string :=
  if hasEntryCode ncs s then
    ("  subgraph cluster_s" ++ hex8 (saddress s) ++ " {" ++ LF
     ++ "    style=filled" ++ LF ++ "    color=lightgrey" ++ LF)
    :: ("    label=" ++ DQUOTE ++ clusterLabel s ++ DQUOTE ++ LF ++ LF)
    :: app (separated LF (map (fun bp => blockWrites (blockAt ncs bp)) (sblocks s)))
           ["  }" ++ LF ++ LF]
  else [].

(** The edge from a block to a child: from the last node of the block, whose
    index is computed in size_t, to the first node of the child. *)
Definition edgeStatement (b child : Block) (t : BlockEdgeType) : list string :=
  [ "  b" ++ hex8 (baddress b) ++ "_"
    ++ composeString (sizeSub (N.of_nat (calculateNodesPerBlock (length (binstructions b)))) 1)
    ++ " -> " ++ dotName child 0;
    " [ " ++ edgeAttributes t (baddress child <? baddress b)%N
                            (negb (ptrEqb (subRoutine b) (subRoutine child)))
    ++ " ]" ++ LF ].

(** The edges of a block, one for each index of a child. *)
Definition edgeWrites (b : Block) : list string :=
  flat_map (fun i =>
              match nth_error (children b) i, nth_error (childrenTypes b) i with
              | Some cp, Some t => edgeStatement b (blockAt ncs cp) t
              | _, _ => []
              end) (seq 0 (length (children b))).

(** The dot graph: the opening, the clusters of the subroutines, the edges of
    the blocks, the closing. *)
Definition dotGraph : list string :=
  app dotOpening
      (app (flat_map clusterWrites (getSubRoutines ncs))
           (app (flat_map edgeWrites (getBlocks ncs)) dotClosing)).




End DotGraphDescription.


Section ReturnDescription.

Variable util : Util.
Variable ncs : NCSFile.




End ReturnDescription.



(** ** Sample programs

    The inputs at which the statements below are instantiated. *)

Module Sample.

Definition noVariable : VariableT :=
  {| id := 0; type := kTypeInt; creator := None; siblings := [] |}.

(** RETN at address 0: one byte, no follower, an empty stack. *)
Definition retnInstr : Instruction :=
  {| address := 0; opcode := kOpcodeOther 32; args := []; addressType := kAddressTypeNone;
     follower := None; branches := []; block := Some 0%nat; stack := [];
     variables := [] |}.

(** JSR at address 8, calling the instruction at pointer 0; after stack
    analysis it carries one argument and a stack of one slot. *)
Definition jsrInstr : Instruction :=
  {| address := 8; opcode := kOpcodeOther 30; args := []; addressType := kAddressTypeNone;
     follower := Some 0%nat; branches := [0%nat]; block := Some 1%nat;
     stack := [{| variable := 0%nat |}]; variables := [0%nat] |}.

(** The block of the single RETN. *)
Definition retnBlock : Block :=
  {| baddress := 0; binstructions := [0%nat]; children := []; childrenTypes := [];
     subRoutine := Some 0%nat; controls := [] |}.

Definition returnControl : ControlStructure :=
  {| ctype := kControlTypeReturn; retn := Some 0%nat; ifCond := None; ifTrue := None;
     ifElse := None; ifNext := None |}.


(** A block at address 8 that branches back to the block at address 0 when a
    condition fails, calls a subroutine, and returns. *)
Definition callBlock : Block :=
  {| baddress := 8; binstructions := [1%nat];
     children := [0%nat; 0%nat];
     childrenTypes := [kBlockEdgeTypeConditionalFalse; kBlockEdgeTypeSubRoutineCall];
     subRoutine := Some 0%nat; controls := [returnControl] |}.

(** A block of 11 instructions at address 0x100. *)
Definition bigBlock : Block :=
  {| baddress := 256; binstructions := repeat 0%nat 11; children := []; childrenTypes := [];
     subRoutine := Some 0%nat; controls := [] |}.

Definition mainSub : SubRoutine :=
  {| saddress := 0; sblocks := [0%nat]; returns := []; stype := kSubRoutineTypeNone;
     stackAnalyzeState := kStackAnalyzeStateFinished |}.

Definition instructionStore (p : InstructionPtr) : Instruction :=
  match p with
  | O => retnInstr
  | _ => jsrInstr
  end.

Definition blockStore (p : BlockPtr) : Block :=
  match p with
  | O => retnBlock
  | _ => callBlock
  end.

Definition program (analysed : bool) : NCSFile :=
  {| size := 1; getGame := 0%Z; getInstructions := [retnInstr];
     getBlocks := [retnBlock]; getSubRoutines := [mainSub]; getGlobals := [];
     hasStackAnalysis := analysed;
     instructionAt := instructionStore; blockAt := blockStore;
     subRoutineAt := fun _ => mainSub; variableAt := fun _ => noVariable |}.

(** Formatters for a game without engine types. *)
Definition util : Util :=
  {| formatBytes := fun _ => "20 00";
     formatInstruction := fun i _ =>
       match opcode i with
       | kOpcodeOther 32 => "RETN"
       | _ => "JSR"
       end;
     formatInstructionData := fun _ => EmptyString;
     formatJumpLabelName := fun _ => EmptyString;
     formatJumpLabelNameBlock := fun _ => EmptyString;
     formatJumpLabelNameSub := fun _ => EmptyString;
     formatJumpDestination := fun _ => "loc_00000000";
     formatSignature := fun _ => "void main()";
     formatSignatureNSS := fun _ _ _ => "void main()";
     formatVariableName := fun _ => "var0";
     getVariableTypeName := fun _ _ => "int";
     getVariableTypeNameDefault := fun _ => "int";
     getFunctionName := fun _ _ => "Action";
     getEngineTypeCount := fun _ => 0%nat;
     getEngineTypeName := fun _ _ => EmptyString;
     getGenericEngineTypeName := fun _ => EmptyString;
     isSubRoutineCall := fun t =>
       match t with
       | kBlockEdgeTypeSubRoutineCall => true
       | _ => false
       end |}.

(** A block whose children and their edge types do not pair up. *)
Definition lopsidedBlock : Block :=
  {| baddress := 16; binstructions := [0%nat]; children := [0%nat]; childrenTypes := [];
     subRoutine := Some 0%nat; controls := [] |}.

(** A block without instructions that has a child. *)
Definition hollowBlock : Block :=
  {| baddress := 32; binstructions := []; children := [0%nat];
     childrenTypes := [kBlockEdgeTypeUnconditional];
     subRoutine := Some 0%nat; controls := [] |}.

(** A subroutine without blocks. *)
Definition blocklessSub : SubRoutine :=
  {| saddress := 64; sblocks := []; returns := []; stype := kSubRoutineTypeNone;
     stackAnalyzeState := kStackAnalyzeStateFinished |}.

(** The sample program with other blocks and subroutines. *)
Definition programWith (blocks : list Block) (subs : list SubRoutine) : NCSFile :=
  {| size := 1; getGame := 0%Z; getInstructions := [retnInstr];
     getBlocks := blocks; getSubRoutines := subs; getGlobals := [];
     hasStackAnalysis := true;
     instructionAt := instructionStore; blockAt := blockStore;
     subRoutineAt := fun _ => mainSub; variableAt := fun _ => noVariable |}.

Definition hollowStore (p : BlockPtr) : Block :=
  match p with
  | 2%nat => hollowBlock
  | _ => blockStore p
  end.

(** A program whose block at pointer 2 has no instructions. *)
Definition hollowProgram : NCSFile :=
  {| size := 1; getGame := 0%Z; getInstructions := [retnInstr];
     getBlocks := [retnBlock; hollowBlock]; getSubRoutines := [mainSub]; getGlobals := [];
     hasStackAnalysis := true;
     instructionAt := instructionStore; blockAt := hollowStore;
     subRoutineAt := fun _ => mainSub; variableAt := fun _ => noVariable |}.

(** NOT after stack analysis, with its operand and its result only. *)
Definition notInstr : Instruction :=
  {| address := 16; opcode := kOpcodeNOT; args := []; addressType := kAddressTypeNone;
     follower := Some 0%nat; branches := []; block := Some 0%nat; stack := [];
     variables := [0%nat; 1%nat] |}.

(** ACTION number 5 with two parameters and a result. *)
Definition actionInstr : Instruction :=
  {| address := 24; opcode := kOpcodeACTION; args := [5%Z; 2%Z];
     addressType := kAddressTypeNone; follower := Some 0%nat; branches := [];
     block := Some 0%nat; stack := []; variables := [0%nat; 1%nat; 2%nat] |}.

(** A subroutine with two return instructions. *)
Definition twoReturnsSub : SubRoutine :=
  {| saddress := 0; sblocks := [0%nat]; returns := [0%nat; 0%nat];
     stype := kSubRoutineTypeNone; stackAnalyzeState := kStackAnalyzeStateFinished |}.

(** An if with both branches and no continuation; the condition is computed
    by the block at pointer 1. *)
Definition ifElseControl : ControlStructure :=
  {| ctype := kControlTypeIfCond; retn := None; ifCond := Some 1%nat; ifTrue := Some 0%nat;
     ifElse := Some 0%nat; ifNext := None |}.

(** A variable created by the JSR at pointer 1, with two siblings. *)
Definition sharedVariable : VariableT :=
  {| id := 7; type := kTypeInt; creator := Some 1%nat; siblings := [0%nat; 1%nat] |}.

(** The sample program with sharedVariable at every variable pointer. *)
Definition sharedProgram : NCSFile :=
  {| size := 1; getGame := 0%Z; getInstructions := [jsrInstr];
     getBlocks := [retnBlock]; getSubRoutines := [mainSub]; getGlobals := [];
     hasStackAnalysis := true;
     instructionAt := instructionStore; blockAt := blockStore;
     subRoutineAt := fun _ => mainSub; variableAt := fun _ => sharedVariable |}.

(** The entry of a subroutine. *)
Definition entryInstr : Instruction :=
  {| address := 0; opcode := kOpcodeOther 32; args := [];
     addressType := kAddressTypeSubRoutine;
     follower := None; branches := []; block := Some 0%nat; stack := [];
     variables := [] |}.

(** Formatters for a game with three engine types, the second one unnamed. *)
Definition engineUtil : Util :=
  {| formatBytes := formatBytes util;
     formatInstruction := formatInstruction util;
     formatInstructionData := formatInstructionData util;
     formatJumpLabelName := fun _ => "main";
     formatJumpLabelNameBlock := formatJumpLabelNameBlock util;
     formatJumpLabelNameSub := formatJumpLabelNameSub util;
     formatJumpDestination := formatJumpDestination util;
     formatSignature := formatSignature util;
     formatSignatureNSS := formatSignatureNSS util;
     formatVariableName := formatVariableName util;
     getVariableTypeName := getVariableTypeName util;
     getVariableTypeNameDefault := getVariableTypeNameDefault util;
     getFunctionName := getFunctionName util;
     getEngineTypeCount := fun _ => 3%nat;
     getEngineTypeName := fun _ i =>
       match i with
       | 1%nat => EmptyString
       | _ => "Effect"
       end;
     getGenericEngineTypeName := fun _ => "E";
     isSubRoutineCall := isSubRoutineCall util |}.

(** A block without instructions and without children. *)
Definition emptyEntry : Block :=
  {| baddress := 48; binstructions := []; children := []; childrenTypes := [];
     subRoutine := Some 0%nat; controls := [] |}.


Definition skippedStore (p : BlockPtr) : Block :=
  match p with
  | 2%nat => emptyEntry
  | 3%nat => bigBlock
  | _ => blockStore p
  end.


(** A subroutine made of the block of the RETN, the calling block and the
    block of 11 instructions. *)
Definition wideSub : SubRoutine :=
  {| saddress := 0; sblocks := [0%nat; 1%nat; 3%nat]; returns := [];
     stype := kSubRoutineTypeNone; stackAnalyzeState := kStackAnalyzeStateFinished |}.

(** A program on which createDot writes three blocks and two edges. *)
Definition wideProgram : NCSFile :=
  {| size := 1; getGame := 0%Z; getInstructions := [retnInstr];
     getBlocks := [retnBlock; callBlock; bigBlock]; getSubRoutines := [wideSub];
     getGlobals := [];
     hasStackAnalysis := true;
     instructionAt := instructionStore; blockAt := skippedStore;
     subRoutineAt := fun _ => wideSub; variableAt := fun _ => noVariable |}.














End Sample.

(** ** Properties *)

(** *** Strings *)

Lemma make_length (c : ascii) (n : nat) : String.length (UString.make c n) = n.
Proof. induction n as [|n IH]; simpl; [reflexivity | now rewrite IH]. Qed.

Lemma append_nil_r (s : string) : s ++ EmptyString = s.
Proof. induction s as [|c s IH]; simpl; [reflexivity | now rewrite IH]. Qed.

Lemma append_length (s t : string) :
  String.length (s ++ t) = (String.length s + String.length t)%nat.
Proof. induction s as [|c s IH]; simpl; [reflexivity | now rewrite IH]. Qed.

Lemma append_assoc (s t u : string) : (s ++ t) ++ u = s ++ (t ++ u).
Proof. induction s as [|c s IH]; simpl; [reflexivity | now rewrite IH]. Qed.

Lemma pad_width_0 (l : bool) (fill : ascii) (s : string) : UString.pad l fill 0 s = s.
Proof. unfold UString.pad; simpl; destruct l; [apply append_nil_r | reflexivity]. Qed.

Lemma leftPadded_length (w : nat) (s : string) :
  String.length (leftPadded w s) = Nat.max w (String.length s).
Proof. unfold leftPadded; rewrite append_length, make_length; lia. Qed.

Lemma rightPadded_length (w : nat) (s : string) :
  String.length (rightPadded w s) = Nat.max w (String.length s).
Proof. unfold rightPadded; rewrite append_length, make_length; lia. Qed.

(** Evaluates the format strings of a goal, leaving the conversions of the
    arguments. *)
Ltac run_format :=
  unfold UString.format;
  repeat match goal with
         | |- context [UString.parse UString.Text ?f] =>
             let r := eval vm_compute in (UString.parse UString.Text f) in
             change (UString.parse UString.Text f) with r
         end;
  cbn [UString.render UString.convert hd_error tl Ascii.eqb Bool.eqb];
  rewrite ?pad_width_0, ?append_nil_r.

(** *** Writers *)

Lemma writes_write (s : string) : Writes (write s) [s].
Proof. intros out; reflexivity. Qed.

Lemma writes_skip : Writes skip [].
Proof. intros out; unfold skip; now rewrite app_nil_r. Qed.

Lemma writes_andThen (e1 e2 : Emit) (w1 w2 : list string) :
  Writes e1 w1 -> Writes e2 w2 -> Writes (e1 ;; e2) (w1 ++ w2)%list.
Proof.
  intros H1 H2 out; unfold andThen; rewrite H1, H2; now rewrite app_assoc.
Qed.

Lemma writes_forEach {A : Type} (body : A -> Emit) (f : A -> list string) (xs : list A) :
  (forall x, In x xs -> Writes (body x) (f x)) ->
  Writes (forEach body xs) (flat_map f xs).
Proof.
  induction xs as [|x xs IH]; intros H; simpl.
  - apply writes_skip.
  - apply writes_andThen; [apply H; now left | apply IH; intros y Hy; apply H; now right].
Qed.

Lemma writes_forIndexedFrom {A : Type} (body : nat -> A -> Emit)
    (f : nat -> A -> list string) (xs : list A) (i : nat) :
  (forall j x, Writes (body j x) (f j x)) ->
  Writes (forIndexedFrom i body xs) (indexedFrom i f xs).
Proof.
  intros H; revert i; induction xs as [|x xs IH]; intros i; simpl.
  - apply writes_skip.
  - apply writes_andThen; [apply H | apply IH].
Qed.

Lemma writes_eq (e : Emit) (w w' : list string) : Writes e w -> w = w' -> Writes e w'.
Proof. now intros H <-. Qed.

Lemma framed_write (s : string) : Framed (write s).
Proof. intros out; reflexivity. Qed.

Lemma framed_skip : Framed skip.
Proof. intros out; unfold skip; now rewrite app_nil_r. Qed.

Lemma framed_fault : Framed fault.
Proof. intros out; reflexivity. Qed.

Lemma framed_andThen (e1 e2 : Emit) : Framed e1 -> Framed e2 -> Framed (e1 ;; e2).
Proof.
  intros H1 H2 out; unfold andThen; rewrite (H1 out).
  destruct (e1 []) as [w1| |]; try reflexivity.
  rewrite (H2 (out ++ w1)%list), (H2 w1).
  destruct (e2 []) as [w2| |]; try reflexivity.
  now rewrite app_assoc.
Qed.

Lemma framed_forEach {A : Type} (body : A -> Emit) (xs : list A) :
  (forall x, Framed (body x)) -> Framed (forEach body xs).
Proof.
  intros H; induction xs as [|x xs IH]; simpl;
    [apply framed_skip | apply framed_andThen; [apply H | apply IH]].
Qed.

Lemma framed_forUpTo (n : nat) (body : nat -> Emit) :
  (forall i, Framed (body i)) -> Framed (forUpTo n body).
Proof. intros H; now apply framed_forEach. Qed.

Lemma framed_forIndexed {A : Type} (body : nat -> A -> Emit) (xs : list A) :
  (forall i x, Framed (body i x)) -> Framed (forIndexed body xs).
Proof.
  intros H; unfold forIndexed; generalize 0%nat.
  induction xs as [|x xs IH]; intros i; simpl;
    [apply framed_skip | apply framed_andThen; [apply H | apply IH]].
Qed.

Lemma framed_withSome {A : Type} (o : option A) (k : A -> Emit) :
  (forall a, Framed (k a)) -> Framed (withSome o k).
Proof. intros H; destruct o; simpl; [apply H | apply framed_fault]. Qed.

Lemma framed_if (c : bool) (e1 e2 : Emit) :
  Framed e1 -> Framed e2 -> Framed (if c then e1 else e2).
Proof. now destruct c. Qed.

Lemma framed_outOfFuel : Framed (fun _ => OutOfFuel).
Proof. intros out; reflexivity. Qed.

(** Splits a writer along its structure, down to the single writes. *)
Ltac framed :=
  repeat first
    [ assumption
    | match goal with
      | H : context [Framed] |- Framed _ => simple apply H
      end
    | apply framed_write | apply framed_skip | apply framed_fault
    | apply framed_outOfFuel
    | apply framed_andThen | apply framed_forEach; intros ?
    | apply framed_forUpTo; intros ? | apply framed_forIndexed; intros ? ?
    | apply framed_withSome; intros ? | apply framed_if
    | match goal with
      | |- Framed (match ?x with _ => _ end) => destruct x
      | |- Framed (let _ := _ in _) => cbv zeta
      end ].

Lemma framed_same (e : Emit) : Framed e -> SameOutcome e.
Proof.
  intros H out1 out2; rewrite (H out1), (H out2).
  destruct (e []) as [w| |]; [left; now exists w | right; now left | right; now right].
Qed.

(** *** The writers do not read the stream *)

Section FramedWriters.

Variable util : Util.
Variable ncs : NCSFile.

Lemma framed_writeDotBlock (pct : bool) (b : Block) :
  Framed (writeDotBlock util ncs pct b).
Proof. unfold writeDotBlock; framed. Qed.

Lemma framed_writeDotBlocks (pct : bool) (blocks : list BlockPtr) :
  Framed (writeDotBlocks util ncs pct blocks).
Proof.
  pose proof (framed_writeDotBlock pct).
  induction blocks as [|b rest IH]; simpl; framed.
Qed.

Lemma framed_createDot (pct : bool) : Framed (createDot util ncs pct).
Proof.
  unfold createDot, writeDotClusteredBlocks, writeDotBlockEdges, writeDotBlockEdge.
  pose proof (framed_writeDotBlocks pct).
  framed.
Qed.

Lemma framed_writeNSSIndent (indent : nat) : Framed (writeNSSIndent indent).
Proof. unfold writeNSSIndent; framed. Qed.

Lemma framed_writeNSSInstruction (i : Instruction) (indent : nat) :
  Framed (writeNSSInstruction util ncs i indent).
Proof.
  pose proof framed_writeNSSIndent.
  unfold writeNSSInstruction, writeNSSBinary, variableOf; framed.
Qed.

Lemma framed_writeNSSBlock (fuel : nat) :
  forall block indent, Framed (writeNSSBlock util ncs fuel block indent).
Proof.
  pose proof framed_writeNSSIndent; pose proof framed_writeNSSInstruction.
  induction fuel as [|fuel IH]; intros block indent; simpl.
  - apply framed_outOfFuel.
  - unfold writeNSSCall, writeNSSControl, writeNSSReturn, writeNSSIfBlockWith, variableOf.
    framed.
Qed.

Lemma framed_createNSS (fuel : nat) : Framed (createNSS util ncs fuel).
Proof.
  pose proof (framed_writeNSSBlock fuel).
  unfold createNSS, writeNSSSubRoutine; framed.
Qed.

End FramedWriters.

(** *** Header, listing and assembly *)

Lemma writes_writesOf (e : Emit) (w : list string) : Writes e w -> Writes e (writesOf e).
Proof. intros H; unfold writesOf; now rewrite (H []). Qed.

Lemma writes_if (c : bool) (e1 e2 : Emit) (w1 w2 : list string) :
  Writes e1 w1 -> Writes e2 w2 -> Writes (if c then e1 else e2) (if c then w1 else w2).
Proof. now destruct c. Qed.

Lemma writes_unlessFollowed {A : Type} (o : option A) (s : string) :
  Writes match o with
         | None => write s
         | Some _ => skip
         end
         match o with
         | None => [s]
         | Some _ => []
         end.
Proof. destruct o; [apply writes_skip | apply writes_write]. Qed.

(** Splits a writer that cannot fail into its writes. *)
Ltac writes :=
  repeat first
    [ assumption
    | match goal with
      | H : context [Writes] |- Writes _ _ => simple apply H
      end
    | apply writes_write | apply writes_skip
    | eapply writes_andThen
    | eapply writes_forIndexedFrom; intros ? ?
    | eapply writes_forEach; intros ? ? ].

Section ListingWriters.

Variable util : Util.
Variable ncs : NCSFile.

Lemma writes_writeInfo : Writes (writeInfo ncs) [banner ncs].
Proof. unfold writeInfo; run_format; apply writes_write. Qed.

Lemma writes_writeEngineTypes : Writes (writeEngineTypes util ncs) (engineTypeLegend util ncs).
Proof.
  unfold writeEngineTypes, engineTypeLegend, forUpTo.
  destruct (0 <? _)%nat; [|apply writes_skip].
  change (?a :: ?l ++ ?r)%list with ([a] ++ (l ++ r))%list.
  writes.
  destruct (UString.empty _); [apply writes_skip | run_format; apply writes_write].
Qed.

Lemma empty_append_colon (name rest : string) :
  UString.empty name = false -> UString.empty (name ++ rest) = false.
Proof. now destruct name. Qed.

Lemma writes_writeJumpLabel (i : Instruction) :
  Writes (writeJumpLabel util ncs i) (jumpLabelLine util ncs i).
Proof.
  unfold writeJumpLabel, jumpLabelLine.
  destruct (UString.empty (formatJumpLabelName util i)) eqn:E; simpl.
  - rewrite E; apply writes_skip.
  - destruct (UString.empty (getSignature util ncs i)); simpl.
    + rewrite (empty_append_colon _ _ E); simpl.
      eapply writes_eq; [apply writes_write|].
      now rewrite append_assoc.
    + rewrite (empty_append_colon _ _ (empty_append_colon _ ":" E)); simpl.
      eapply writes_eq; [apply writes_write|].
      now rewrite !append_assoc.
Qed.

Lemma writeStack_returns (i : Instruction) (indent : nat) :
  exists w, Writes (writeStack util ncs i indent) w.
Proof. eexists; unfold writeStack, forIndexed; writes. Qed.

Lemma writes_createListing (printStack : bool) :
  Writes (createListing util ncs printStack)
    (banner ncs
     :: engineTypeLegend util ncs
     ++ flat_map (fun i =>
          jumpLabelLine util ncs i
          ++ (if hasStackAnalysis ncs && printStack
              then writesOf (writeStack util ncs i 36) else [])
          ++ listingLine util ncs i
          :: match follower i with
             | None => [listingSeparator]
             | Some _ => []
             end) (getInstructions ncs))%list.
Proof.
  unfold createListing.
  apply (writes_andThen _ _ [_] _ writes_writeInfo).
  apply (writes_andThen _ _ _ _ writes_writeEngineTypes).
  apply writes_forEach; intros i _.
  apply (writes_andThen _ _ _ _ (writes_writeJumpLabel i)).
  apply writes_andThen.
  - apply writes_if; [|apply writes_skip].
    destruct (writeStack_returns i 36) as [rest Hrest].
    exact (writes_writesOf _ _ Hrest).
  - apply (writes_andThen _ _ [_] _ (writes_write _)).
    apply writes_unlessFollowed.
Qed.

Lemma writes_createAssembly (printStack : bool) :
  Writes (createAssembly util ncs printStack)
    (banner ncs
     :: engineTypeLegend util ncs
     ++ flat_map (fun i =>
          jumpLabelLine util ncs i
          ++ (if hasStackAnalysis ncs && printStack
              then writesOf (writeStack util ncs i 0) else [])
          ++ assemblyLine util ncs i
          :: match follower i with
             | None => [LF]
             | Some _ => []
             end) (getInstructions ncs))%list.
Proof.
  unfold createAssembly.
  apply (writes_andThen _ _ [_] _ writes_writeInfo).
  apply (writes_andThen _ _ _ _ writes_writeEngineTypes).
  apply writes_forEach; intros i _.
  apply (writes_andThen _ _ _ _ (writes_writeJumpLabel i)).
  apply writes_andThen.
  - apply writes_if; [|apply writes_skip].
    destruct (writeStack_returns i 0) as [rest Hrest].
    exact (writes_writesOf _ _ Hrest).
  - run_format.
    apply (writes_andThen _ _ [_] _ (writes_write _)).
    apply writes_unlessFollowed.
Qed.

End ListingWriters.

Lemma digitsFrom_length (digit : N -> ascii) (base : N) (fuel : nat) :
  (2 <= base)%N ->
  forall (k : nat) (n : N) (acc : string),
    (1 <= k)%nat -> (n < base ^ N.of_nat k)%N ->
    (String.length (UString.digitsFrom digit base fuel n acc) <= k + String.length acc)%nat.
Proof.
  intros Hbase; induction fuel as [|fuel IH]; intros k n acc Hk Hn; simpl; [lia|].
  destruct (N.eqb_spec (n / base) 0) as [Hz|Hz]; simpl; [lia|].
  destruct k as [|[|k]]; [lia| |].
  - exfalso; apply Hz; apply N.div_small.
    change (N.of_nat 1) with 1%N in Hn; now rewrite N.pow_1_r in Hn.
  - specialize (IH (S k) (n / base)%N (String (digit (n mod base)%N) acc)).
    simpl String.length in IH.
    assert (n / base < base ^ N.of_nat (S k))%N.
    { apply N.Div0.div_lt_upper_bound.
      replace (N.of_nat (S (S k))) with (N.succ (N.of_nat (S k))) in Hn by lia.
      now rewrite N.pow_succ_r' in Hn. }
    specialize (IH ltac:(lia) H); lia.
Qed.

Lemma hexUpper_length (a : N) : (String.length (UString.hexUpper a) <= 8)%nat.
Proof.
  unfold UString.hexUpper, UString.digits.
  pose proof (digitsFrom_length UString.hexDigit 16 64 ltac:(lia) 8 (a mod 2 ^ 32)
                EmptyString ltac:(lia)) as H.
  change (8 + String.length EmptyString)%nat with 8%nat in H; apply H.
  change (16 ^ N.of_nat 8)%N with (2 ^ 32)%N.
  apply N.mod_lt; discriminate.
Qed.

Lemma hex8_length (a : N) : String.length (hex8 a) = 8%nat.
Proof.
  unfold hex8; rewrite append_length, make_length.
  pose proof (hexUpper_length a); lia.
Qed.

Lemma listingLine_eq (util : Util) (ncs : NCSFile) (i : Instruction) :
  listingLine util ncs i
  = "  " ++ hex8 (address i) ++ " " ++ rightPadded 26 (formatBytes util i) ++ " "
    ++ formatInstruction util i (getGame ncs) ++ LF.
Proof. unfold listingLine; run_format; reflexivity. Qed.

(** *** The claims on the listing and the assembly *)

(** C4: for a game without engine types and a program of size 1 whose only
    instruction is a RETN at address 0, without jump label and without
    follower, createAssembly with printStack false returns, and the bytes it
    has written are the banner line, an empty line, the mnemonic after two
    spaces, and the empty line that separates an instruction without
    follower. *)
Theorem createAssembly_single_retn (util : Util) (ncs : NCSFile) (i : Instruction) :
  getEngineTypeCount util (getGame ncs) = 0%nat ->
  size ncs = 1%N ->
  getInstructions ncs = [i] ->
  address i = 0%N ->
  follower i = None ->
  formatJumpLabelName util i = EmptyString ->
  formatInstruction util i (getGame ncs) = "RETN" ->
  exists w,
    Writes (createAssembly util ncs false) w
    /\ contents w = "; 1 bytes, 1 instructions" ++ LF ++ LF ++ "  RETN" ++ LF ++ LF.
Proof.
  intros Hcount Hsize Hinstr _ Hfollower Hlabel Hmnemonic.
  eexists; split; [apply writes_createAssembly|].
  unfold banner, engineTypeLegend, jumpLabelLine, assemblyLine.
  rewrite Hcount, Hsize, Hinstr; simpl flat_map.
  rewrite Hfollower, Hlabel, Hmnemonic, andb_false_r.
  reflexivity.
Qed.

Lemma createAssembly_single_retn_witness :
  exists w,
    Writes (createAssembly Sample.util (Sample.program true) false) w
    /\ contents w = "; 1 bytes, 1 instructions" ++ LF ++ LF ++ "  RETN" ++ LF ++ LF.
Proof.
  apply (createAssembly_single_retn Sample.util (Sample.program true) Sample.retnInstr);
    reflexivity.
Defined.

(** C5, as the specification words it, fails: the listing of the sample
    program writes the bytes column of its RETN with the spaces after the
    bytes, not before them. *)
Lemma listing_line_left_padded_counterexample :
  In (listingLine Sample.util (Sample.program false) Sample.retnInstr)
     (writesOf (createListing Sample.util (Sample.program false) false))
  /\ listingLine Sample.util (Sample.program false) Sample.retnInstr
     <> listingLineLeftPadded Sample.util (Sample.program false) Sample.retnInstr.
Proof.
  split.
  - vm_compute; right; left; reflexivity.
  - vm_compute; discriminate.
Qed.

(** C5, amended: for every instruction of the program, createListing writes a
    disassembly line that consists of two spaces, the address in upper-case
    hexadecimal filled with zeros to 8 digits, a space, the raw bytes
    followed by spaces up to width 26, a space, the mnemonic, and a line
    feed. *)
Theorem listing_line_right_padded (util : Util) (ncs : NCSFile) (printStack : bool)
    (i : Instruction) :
  In i (getInstructions ncs) ->
  exists w line,
    Writes (createListing util ncs printStack) w
    /\ In line w
    /\ line = "  " ++ hex8 (address i) ++ " " ++ rightPadded 26 (formatBytes util i)
              ++ " " ++ formatInstruction util i (getGame ncs) ++ LF
    /\ String.length (hex8 (address i)) = 8%nat
    /\ String.length (rightPadded 26 (formatBytes util i))
       = Nat.max 26 (String.length (formatBytes util i)).
Proof.
  intros Hi; eexists; exists (listingLine util ncs i).
  split; [apply writes_createListing|].
  split; [|split; [apply listingLine_eq | split; [apply hex8_length|]]];
    [|apply rightPadded_length].
  right; apply in_or_app; right.
  apply in_flat_map; exists i; split; [assumption|].
  apply in_or_app; right; apply in_or_app; right; now left.
Qed.

Lemma listing_line_right_padded_witness :
  exists w line,
    Writes (createListing Sample.util (Sample.program false) true) w
    /\ In line w
    /\ line = "  00000000 20 00" ++ UString.make " " 21 ++ " RETN" ++ LF
    /\ String.length (hex8 0) = 8%nat
    /\ String.length (rightPadded 26 "20 00") = Nat.max 26 5.
Proof.
  apply (listing_line_right_padded Sample.util (Sample.program false) true Sample.retnInstr).
  simpl; now left.
Defined.

(** C6, as the specification words it, fails: the stack dump of an
    instruction with an empty stack does not begin with the depth followed by
    three spaces. *)
Lemma stack_head_right_padded_counterexample :
  ~ exists rest,
      writeStack Sample.util (Sample.program true) Sample.retnInstr 0 []
      = Done (EmptyString :: stackHeadRightPadded Sample.retnInstr :: rest).
Proof. intros [rest H]; vm_compute in H; discriminate H. Qed.

(** C6, amended: the first line of the stack dump of an instruction, after the
    indentation, renders the depth of the stack with the spaces before the
    digits, up to width 4. *)
Theorem stack_head_left_padded (util : Util) (ncs : NCSFile) (i : Instruction)
    (indent : nat) :
  let depth := composeString (N.of_nat (length (stack i))) in
  (exists rest,
      Writes (writeStack util ncs i indent)
        (UString.make " " indent
         :: ("; .--- Stack: " ++ leftPadded 4 depth ++ " ---" ++ LF)
         :: rest))
  /\ String.length (leftPadded 4 depth) = Nat.max 4 (String.length depth).
Proof.
  intros depth; split; [|apply leftPadded_length].
  eexists; unfold writeStack, forIndexed; run_format.
  change (?a :: ?b :: ?r) with ([a] ++ ([b] ++ r))%list.
  apply writes_andThen; [apply writes_write|].
  apply writes_andThen; [apply writes_write|].
  eapply writes_andThen.
  - eapply writes_forIndexedFrom; intros s slot.
    eapply writes_andThen; apply writes_write.
  - eapply writes_andThen; apply writes_write.
Qed.

(** C7: when the program has no stack analysis, createListing and
    createAssembly write, whatever printStack is, the banner, the legend of
    the engine types and, for every instruction, its label line without a
    signature, its disassembly line and its separator, hence no stack
    dump; and the signature of every subroutine and of every instruction is
    empty. *)
Theorem no_stack_analysis_no_dump (util : Util) (ncs : NCSFile) (printStack : bool) :
  hasStackAnalysis ncs = false ->
  Writes (createListing util ncs printStack)
    (banner ncs :: engineTypeLegend util ncs
     ++ flat_map (plainInstruction util (listingLine util ncs) listingSeparator)
                 (getInstructions ncs))%list
  /\ Writes (createAssembly util ncs printStack)
       (banner ncs :: engineTypeLegend util ncs
        ++ flat_map (plainInstruction util (assemblyLine util ncs) LF)
                    (getInstructions ncs))%list
  /\ (forall sub, getSignatureSub util ncs sub = EmptyString)
  /\ (forall instr, getSignature util ncs instr = EmptyString).
Proof.
  intros Hno.
  assert (Hsig : forall instr, getSignature util ncs instr = EmptyString).
  { intros instr; unfold getSignature; now rewrite Hno. }
  assert (Hlabel : forall i, jumpLabelLine util ncs i = plainLabelLine util i).
  { intros i; unfold jumpLabelLine, plainLabelLine; now rewrite Hsig. }
  repeat split.
  - eapply writes_eq; [apply writes_createListing|].
    do 2 f_equal; apply flat_map_ext; intros i.
    now rewrite Hno, Hlabel.
  - eapply writes_eq; [apply writes_createAssembly|].
    do 2 f_equal; apply flat_map_ext; intros i.
    now rewrite Hno, Hlabel.
  - intros sub; unfold getSignatureSub; now rewrite Hno.
  - exact Hsig.
Qed.

Lemma no_stack_analysis_no_dump_witness :
  Writes (createListing Sample.util (Sample.program false) true)
    [banner (Sample.program false);
     listingLine Sample.util (Sample.program false) Sample.retnInstr;
     listingSeparator]
  /\ Writes (createAssembly Sample.util (Sample.program false) true)
       [banner (Sample.program false);
        assemblyLine Sample.util (Sample.program false) Sample.retnInstr;
        LF]
  /\ (forall sub, getSignatureSub Sample.util (Sample.program false) sub = EmptyString)
  /\ (forall instr, getSignature Sample.util (Sample.program false) instr = EmptyString).
Proof.
  apply (no_stack_analysis_no_dump Sample.util (Sample.program false) true).
  reflexivity.
Defined.

(** *** The nodes of a block in the dot graph *)

Lemma Z_ceil_div (a b : Z) : (0 <= a)%Z -> (0 < b)%Z -> (- (- a / b) = (a + b - 1) / b)%Z.
Proof.
  intros Ha Hb.
  pose proof (Z.div_mod (- a) b ltac:(lia)) as H1.
  pose proof (Z.mod_pos_bound (- a) b Hb) as H2.
  pose proof (Z.div_mod (a + b - 1) b ltac:(lia)) as H3.
  pose proof (Z.mod_pos_bound (a + b - 1) b Hb) as H4.
  nia.
Qed.

Lemma ceil_div (a b : nat) :
  (1 <= b)%nat -> ceil (toDouble a / toDouble b)%Q = ((a + b - 1) / b)%nat.
Proof.
  intros Hb; unfold ceil, toDouble, Qceiling, Qfloor, Qdiv, Qmult, Qinv, Qopp, inject_Z.
  cbn [Qnum Qden].
  destruct (Z.of_nat b) as [|p|p] eqn:E; try lia.
  cbn [Qnum Qden]; rewrite Z.mul_1_r, Pos.mul_1_l.
  rewrite Z_ceil_div by lia.
  rewrite <- E.
  replace (Z.of_nat a + Z.of_nat b - 1)%Z with (Z.of_nat (a + b - 1)) by lia.
  rewrite <- Nat2Z.inj_div; apply Nat2Z.id.
Qed.

Lemma calculateNodesPerBlock_eq (k : nat) : calculateNodesPerBlock k = ((k + 9) / 10)%nat.
Proof.
  unfold calculateNodesPerBlock; rewrite ceil_div by lia.
  now replace (k + 10 - 1)%nat with (k + 9)%nat by lia.
Qed.

(** The node count is the ceiling of k / 10. *)
Lemma calculateNodesPerBlock_ceiling (k : nat) :
  (k <= 10 * calculateNodesPerBlock k < k + 10)%nat.
Proof.
  rewrite calculateNodesPerBlock_eq.
  pose proof (Nat.div_mod_eq (k + 9) 10).
  pose proof (Nat.mod_upper_bound (k + 9) 10 ltac:(lia)).
  lia.
Qed.

Lemma lines_cover (k n i : nat) :
  (1 <= n)%nat -> (i < k)%nat ->
  ((k + n - 1) / n <> 0 /\ i / ((k + n - 1) / n) < n)%nat.
Proof.
  intros Hn Hi.
  pose proof (Nat.div_mod_eq (k + n - 1) n).
  pose proof (Nat.mod_upper_bound (k + n - 1) n ltac:(lia)).
  assert (k <= n * ((k + n - 1) / n))%nat by nia.
  split; [nia|].
  apply Nat.Div0.div_lt_upper_bound; nia.
Qed.

Lemma vectorUpdate_length {A : Type} (f : A -> A) (v : list A) :
  forall i v', vectorUpdate v i f = Some v' -> length v' = length v.
Proof.
  induction v as [|x v IH]; intros [|i] v' H; simpl in H; try discriminate.
  - now injection H as <-.
  - destruct (vectorUpdate v i f) as [r|] eqn:E; [|discriminate].
    injection H as <-; simpl; f_equal; now apply (IH i).
Qed.

Lemma vectorUpdate_in_range {A : Type} (f : A -> A) (v : list A) :
  forall i, (i < length v)%nat -> exists v', vectorUpdate v i f = Some v'.
Proof.
  induction v as [|x v IH]; intros [|i] Hi; simpl in *; try lia.
  - now eexists.
  - destruct (IH i ltac:(lia)) as [r ->]; now eexists.
Qed.

(** The loop over the instructions of a block keeps the labels vector as long
    as every index it computes is in range. *)
Lemma label_loop_in_range (L n : nat) (g : InstructionPtr -> string -> string)
    (entries : list (nat * InstructionPtr)) :
  L <> 0%nat ->
  (forall i ip, In (i, ip) entries -> (i / L < n)%nat) ->
  forall labels, length labels = n ->
    exists labels',
      fold_left
        (fun labels (entry : nat * InstructionPtr) =>
           let (i, ip) := entry in
           match labels with
           | None => None
           | Some labels =>
               if (L =? 0)%nat then None else vectorUpdate labels (i / L) (g ip)
           end) entries (Some labels) = Some labels'
      /\ length labels' = n.
Proof.
  intros HL; induction entries as [|[i ip] entries IH]; intros Hin labels Hlen; simpl.
  - now exists labels.
  - destruct (Nat.eqb_spec L 0) as [|_]; [contradiction|].
    destruct (vectorUpdate_in_range (g ip) labels (i / L)) as [labels1 E].
    { rewrite Hlen; apply (Hin i ip); now left. }
    rewrite E; apply IH.
    + intros j jp Hj; apply (Hin j jp); now right.
    + rewrite (vectorUpdate_length _ _ _ _ E); exact Hlen.
Qed.

Section DotBlocks.

Variable util : Util.
Variable ncs : NCSFile.

Lemma dotNodeName_eq (b : Block) (i : nat) : dotNodeName b i = dotName b i.
Proof. unfold dotNodeName; run_format; reflexivity. Qed.

(** A block with instructions gets one label per node. *)
Lemma dotLabels_some (pct : bool) (b : Block) :
  (1 <= length (binstructions b))%nat ->
  exists labels,
    dotLabels util ncs pct b = Some labels
    /\ length labels = calculateNodesPerBlock (length (binstructions b)).
Proof.
  intros Hk; unfold dotLabels.
  set (k := length (binstructions b)) in *.
  pose proof (calculateNodesPerBlock_ceiling k) as Hn.
  set (n := calculateNodesPerBlock k) in *.
  rewrite repeat_length.
  destruct (Nat.eqb_spec n 0) as [|_]; [lia|].
  rewrite ceil_div by lia.
  assert (Hname : exists name,
             (if UString.empty (formatJumpLabelNameBlock util b)
              then option_map
                     (fun front => formatJumpDestination util (address (instructionAt ncs front)))
                     (hd_error (binstructions b))
              else Some (formatJumpLabelNameBlock util b)) = Some name).
  { destruct (UString.empty _); [|now eexists].
    subst k; destruct (binstructions b); simpl in *; [lia | now eexists]. }
  destruct Hname as [name ->].
  destruct (vectorUpdate_in_range
              (fun _ => (if pct then getBlockControl b else EmptyString) ++ name ++ ":\l")
              (repeat EmptyString n) 0) as [labels0 E0].
  { rewrite repeat_length; lia. }
  rewrite E0.
  apply label_loop_in_range.
  - apply (lines_cover k n 0); lia.
  - intros i ip Hin; apply in_combine_l in Hin; apply in_seq in Hin.
    apply (lines_cover k n i); lia.
  - rewrite (vectorUpdate_length _ _ _ _ E0); apply repeat_length.
Qed.

(** A block without instructions has no labels: writing its nodes is
    undefined. *)
Lemma dotLabels_empty_block (pct : bool) (b : Block) :
  binstructions b = [] -> dotLabels util ncs pct b = None.
Proof. intros E; unfold dotLabels; rewrite E; reflexivity. Qed.

Lemma writes_writeDotBlock (pct : bool) (b : Block) (labels : list string) :
  dotLabels util ncs pct b = Some labels ->
  Writes (writeDotBlock util ncs pct b) (blockStatements b labels).
Proof.
  intros E; unfold writeDotBlock, blockStatements; rewrite E; cbn [withSome].
  apply writes_andThen.
  - apply writes_forIndexedFrom; intros i label.
    rewrite dotNodeName_eq; run_format.
    apply (writes_andThen _ _ [_] [_]); apply writes_write.
  - apply writes_if; [|apply writes_skip].
    unfold subdivisionEdge, forUpTo.
    apply writes_andThen; [|apply writes_write].
    apply writes_forEach; intros i _; rewrite dotNodeName_eq.
    apply (writes_andThen _ _ [_] [_]); apply writes_write.
Qed.

End DotBlocks.




Section DotClaims.

Variable util : Util.
Variable ncs : NCSFile.

(** The writes of a block with instructions. *)
Lemma writeDotBlock_statements (pct : bool) (b : Block) :
  (1 <= length (binstructions b))%nat ->
  exists labels,
    length labels = calculateNodesPerBlock (length (binstructions b))
    /\ Writes (writeDotBlock util ncs pct b) (blockStatements b labels).
Proof.
  intros Hk; destruct (dotLabels_some util ncs pct b Hk) as [labels [E Hlen]].
  exists labels; split; [exact Hlen | now apply writes_writeDotBlock].
Qed.

(** writeDotBlocks returns on a block only if the block has instructions. *)
Lemma writeDotBlock_done (pct : bool) (b : Block) (out out' : Sink) :
  writeDotBlock util ncs pct b out = Done out' ->
  (1 <= length (binstructions b))%nat.
Proof.
  intros H; destruct (binstructions b) eqn:E; [|simpl; lia].
  unfold writeDotBlock in H; rewrite (dotLabels_empty_block util ncs pct b E) in H.
  discriminate H.
Qed.

End DotClaims.

(** *** The edges between blocks in the dot graph *)

Lemma ptrEqb_eq (p q : option nat) : ptrEqb p q = true <-> p = q.
Proof.
  destruct p as [a|], q as [b|]; simpl; try (split; congruence).
  rewrite Nat.eqb_eq; split; congruence.
Qed.

Lemma edgeAttr_eq (b child : Block) (t : BlockEdgeType) :
  edgeAttr b child t
  = edgeAttributes t (baddress child <? baddress b)%N
                   (negb (ptrEqb (subRoutine b) (subRoutine child))).
Proof.
  unfold edgeAttr, edgeAttributes.
  destruct (baddress child <? baddress b)%N, (ptrEqb _ _), t; reflexivity.
Qed.

(** *** NSS: return statements and calls *)

Lemma writes_then (e k : Emit) (w : list string) (out : Sink) :
  Writes e w -> (e ;; k) out = k (out ++ w)%list.
Proof. intros H; unfold andThen; now rewrite H. Qed.

Lemma flat_map_const_repeat {A B : Type} (x : B) (l : list A) :
  flat_map (fun _ => [x]) l = repeat x (length l).
Proof. induction l as [|a l IH]; simpl; [reflexivity | now rewrite IH]. Qed.

Lemma writes_writeNSSIndent (indent : nat) : Writes (writeNSSIndent indent) (tabs indent).
Proof.
  unfold writeNSSIndent, forUpTo, tabs.
  eapply writes_eq.
  - apply (writes_forEach _ (fun _ => [TAB])); intros; apply writes_write.
  - now rewrite flat_map_const_repeat, length_seq.
Qed.

Lemma back_some_length {A : Type} (v : list A) (y : A) :
  back v = Some y -> (1 <= length v)%nat.
Proof. destruct v; [discriminate | simpl; lia]. Qed.

Lemma nth_error_some_length {A : Type} (v : list A) (i : nat) (y : A) :
  nth_error v i = Some y -> (i < length v)%nat.
Proof. intros H; apply nth_error_Some; congruence. Qed.

Section NSSClaims.

Variable util : Util.
Variable ncs : NCSFile.


End NSSClaims.

Lemma bounded_write (s : string) : Bounded (write s).
Proof. intros out; discriminate. Qed.

Lemma bounded_skip : Bounded skip.
Proof. intros out; discriminate. Qed.

Lemma bounded_fault : Bounded fault.
Proof. intros out; discriminate. Qed.

Lemma bounded_andThen (e1 e2 : Emit) : Bounded e1 -> Bounded e2 -> Bounded (e1 ;; e2).
Proof.
  intros H1 H2 out; unfold andThen.
  pose proof (H1 out); destruct (e1 out); [apply H2 | discriminate | contradiction].
Qed.

Lemma bounded_forEach {A : Type} (body : A -> Emit) (xs : list A) :
  (forall x, Bounded (body x)) -> Bounded (forEach body xs).
Proof.
  intros H; induction xs as [|x xs IH]; simpl;
    [apply bounded_skip | apply bounded_andThen; [apply H | apply IH]].
Qed.

Lemma bounded_withSome {A : Type} (o : option A) (k : A -> Emit) :
  (forall a, Bounded (k a)) -> Bounded (withSome o k).
Proof. intros H; destruct o; simpl; [apply H | apply bounded_fault]. Qed.

Lemma bounded_if (c : bool) (e1 e2 : Emit) :
  Bounded e1 -> Bounded e2 -> Bounded (if c then e1 else e2).
Proof. now destruct c. Qed.

Ltac bounded :=
  repeat first
    [ assumption
    | apply bounded_write | apply bounded_skip | apply bounded_fault
    | apply bounded_andThen | apply bounded_forEach; intros ?
    | apply bounded_withSome; intros ? | apply bounded_if
    | match goal with
      | |- Bounded (match ?x with _ => _ end) => destruct x
      | |- Bounded (let _ := _ in _) => cbv zeta
      end ].

Section NSSCalls.

Variable util : Util.
Variable ncs : NCSFile.

Lemma bounded_writeNSSInstruction (i : Instruction) (indent : nat) :
  Bounded (writeNSSInstruction util ncs i indent).
Proof.
  unfold writeNSSInstruction, writeNSSBinary, variableOf, writeNSSIndent, forUpTo; bounded.
Qed.

(** With its last instruction and the branch target in place, the loop body
    writes the call statement and goes on to children[1]. *)
Lemma writeNSSCall_statement (self : BlockPtr -> nat -> Emit) (b : Block) (indent : nat)
    (t : BlockEdgeType) (ip target : InstructionPtr) :
  isSubRoutineCall util t = true ->
  back (binstructions b) = Some ip ->
  nth_error (branches (instructionAt ncs ip)) 0 = Some target ->
  forall out,
    writeNSSCall util ncs self b indent t out
    = withSome (nth_error (children b) 1) (fun child => self child indent)
        (out ++ callStatement util ncs (instructionAt ncs ip) (instructionAt ncs target)
                  indent)%list.
Proof.
  intros Hcall Hback Hbranch out; unfold writeNSSCall, callStatement.
  rewrite Hcall, (writes_then _ _ _ _ (writes_writeNSSIndent indent)).
  rewrite Hback; cbn [withSome]; rewrite Hbranch; cbn [withSome].
  rewrite (writes_then _ _ _ _ (writes_write _)).
  rewrite (writes_then _ _ _ _ (writes_write _)).
  unfold forIndexed.
  rewrite (writes_then _ _
             (indexedFrom 0
                (fun i v =>
                   formatVariableName util (variableAt ncs v)
                   :: if (i <? length (variables (instructionAt ncs ip)) - 1)%nat
                      then [", "] else [])
                (variables (instructionAt ncs ip)))).
  - rewrite (writes_then _ _ _ _ (writes_write _)).
    f_equal; rewrite <- !app_assoc; reflexivity.
  - apply writes_forIndexedFrom; intros j x.
    apply (writes_andThen _ _ [_]); [apply writes_write|].
    apply writes_if; [apply writes_write | apply writes_skip].
Qed.

(** Without an instruction in the block, without a branch target of its last
    instruction, or without a second child, the loop body is undefined. *)
Lemma writeNSSCall_fault (self : BlockPtr -> nat -> Emit) (b : Block) (indent : nat)
    (t : BlockEdgeType) :
  isSubRoutineCall util t = true ->
  (forall ip target child,
      back (binstructions b) = Some ip ->
      nth_error (branches (instructionAt ncs ip)) 0 = Some target ->
      nth_error (children b) 1 = Some child -> False) ->
  forall out, writeNSSCall util ncs self b indent t out = Fault.
Proof.
  intros Hcall Hnone out.
  destruct (back (binstructions b)) as [ip|] eqn:Hback.
  - destruct (nth_error (branches (instructionAt ncs ip)) 0) as [target|] eqn:Hbranch.
    + rewrite (writeNSSCall_statement self b indent t ip target Hcall Hback Hbranch).
      destruct (nth_error (children b) 1) as [child|] eqn:Hchild; [|reflexivity].
      destruct (Hnone ip target child eq_refl Hbranch eq_refl).
    + unfold writeNSSCall.
      rewrite Hcall, (writes_then _ _ _ _ (writes_writeNSSIndent indent)).
      rewrite Hback; cbn [withSome]; rewrite Hbranch; reflexivity.
  - unfold writeNSSCall.
    rewrite Hcall, (writes_then _ _ _ _ (writes_writeNSSIndent indent)).
    rewrite Hback; reflexivity.
Qed.

Lemma call_loop_fault (self : BlockPtr -> nat -> Emit) (b : Block) (indent : nat)
    (t : BlockEdgeType) (types : list BlockEdgeType) :
  (forall t' out, isSubRoutineCall util t' = true ->
                  writeNSSCall util ncs self b indent t' out = Fault) ->
  In t types -> isSubRoutineCall util t = true ->
  forall out, forEach (writeNSSCall util ncs self b indent) types out = Fault.
Proof.
  intros Hfault Hin Hcall; induction types as [|t' types IH]; intros out; [contradiction|].
  simpl; unfold andThen.
  destruct (isSubRoutineCall util t') eqn:E.
  - now rewrite Hfault.
  - destruct Hin as [->|Hin]; [congruence|].
    unfold writeNSSCall at 1; rewrite E; unfold skip; now apply IH.
Qed.

(** A block with a call among its child edges that lacks one of the three
    makes writeNSSBlock undefined. *)
Lemma writeNSSBlock_call_fault (fuel : nat) (block : BlockPtr) (indent : nat)
    (t : BlockEdgeType) :
  let b := blockAt ncs block in
  In t (childrenTypes b) ->
  isSubRoutineCall util t = true ->
  (forall ip target child,
      back (binstructions b) = Some ip ->
      nth_error (branches (instructionAt ncs ip)) 0 = Some target ->
      nth_error (children b) 1 = Some child -> False) ->
  forall out, writeNSSBlock util ncs (S fuel) block indent out = Fault.
Proof.
  intros b Hin Hcall Hnone out; cbn [writeNSSBlock]; fold b; unfold andThen at 1.
  pose proof (bounded_forEach
                (fun ip => writeNSSInstruction util ncs (instructionAt ncs ip) indent)
                (binstructions b)
                (fun ip => bounded_writeNSSInstruction _ indent) out) as Hb.
  destruct (forEach _ (binstructions b) out); [|reflexivity|contradiction].
  unfold andThen; rewrite (call_loop_fault _ b indent t); try assumption; [reflexivity|].
  intros t' out' Ht'; now apply writeNSSCall_fault.
Qed.

(** C10: in a block with a child edge that is a subroutine call, the NSS
    writer reads the last instruction of the block, the first branch target of
    that instruction and the second child of the block.  Unless the block has
    an instruction, this instruction has a branch target and the block has
    two children, writeNSSBlock is undefined; when all three are there, the
    loop body writes the call statement and goes on to the second child. *)
Theorem nss_call_reads (fuel : nat) (block : BlockPtr) (indent : nat) (t : BlockEdgeType) :
  let b := blockAt ncs block in
  In t (childrenTypes b) ->
  isSubRoutineCall util t = true ->
  (forall out,
      writeNSSBlock util ncs (S fuel) block indent out <> Fault ->
      (1 <= length (binstructions b))%nat
      /\ (exists ip, back (binstructions b) = Some ip
                     /\ (1 <= length (branches (instructionAt ncs ip)))%nat)
      /\ (2 <= length (children b))%nat)
  /\ (forall ip,
         back (binstructions b) = Some ip ->
         (1 <= length (branches (instructionAt ncs ip)))%nat ->
         (2 <= length (children b))%nat ->
         exists target child,
           nth_error (branches (instructionAt ncs ip)) 0 = Some target
           /\ nth_error (children b) 1 = Some child
           /\ forall self out,
                writeNSSCall util ncs self b indent t out
                = self child indent
                    (out ++ callStatement util ncs (instructionAt ncs ip)
                              (instructionAt ncs target) indent)%list).
Proof.
  intros b Hin Hcall; split.
  - intros out Hrun.
    destruct (back (binstructions b)) as [ip|] eqn:Hback;
      [destruct (nth_error (branches (instructionAt ncs ip)) 0) as [target|] eqn:Hbranch;
       [destruct (nth_error (children b) 1) as [child|] eqn:Hchild|]|].
    + split; [now apply back_some_length with ip|].
      split; [exists ip; split; [reflexivity|]|].
      * apply nth_error_some_length in Hbranch; lia.
      * apply nth_error_some_length in Hchild; lia.
    + exfalso; apply Hrun, (writeNSSBlock_call_fault fuel block indent t Hin Hcall).
      fold b; intros ip' target' child' H1 H2 H3; congruence.
    + exfalso; apply Hrun, (writeNSSBlock_call_fault fuel block indent t Hin Hcall).
      fold b; intros ip' target' child' H1 H2 H3; congruence.
    + exfalso; apply Hrun, (writeNSSBlock_call_fault fuel block indent t Hin Hcall).
      fold b; intros ip' target' child' H1 H2 H3; congruence.
  - intros ip Hback Hbranches Hchildren.
    destruct (nth_error (branches (instructionAt ncs ip)) 0) as [target|] eqn:Hbranch;
      [|apply nth_error_None in Hbranch; lia].
    destruct (nth_error (children b) 1) as [child|] eqn:Hchild;
      [|apply nth_error_None in Hchild; lia].
    exists target, child; repeat split.
    intros self out.
    rewrite (writeNSSCall_statement self b indent t ip target Hcall Hback Hbranch).
    now rewrite Hchild.
Qed.

End NSSCalls.

Lemma nss_call_reads_witness :
  (forall out,
      writeNSSBlock Sample.util (Sample.program true) 2 1%nat 1 out <> Fault ->
      (1 <= 1)%nat
      /\ (exists ip, back [1%nat] = Some ip
                     /\ (1 <= length (branches (Sample.instructionStore ip)))%nat)
      /\ (2 <= 2)%nat)
  /\ (forall ip,
         back [1%nat] = Some ip ->
         (1 <= length (branches (Sample.instructionStore ip)))%nat ->
         (2 <= 2)%nat ->
         exists target child,
           nth_error (branches (Sample.instructionStore ip)) 0 = Some target
           /\ nth_error [0%nat; 0%nat] 1 = Some child
           /\ forall self out,
                writeNSSCall Sample.util (Sample.program true) self Sample.callBlock 1
                  kBlockEdgeTypeSubRoutineCall out
                = self child 1%nat
                    (out ++ callStatement Sample.util (Sample.program true)
                              (Sample.instructionStore ip)
                              (Sample.instructionStore target) 1)%list).
Proof.
  apply (nss_call_reads Sample.util (Sample.program true) 1 1%nat 1
           kBlockEdgeTypeSubRoutineCall).
  - simpl; right; now left.
  - reflexivity.
Defined.

(** The NSS writer returns on the sample block with the call: it writes the
    call statement, goes on to the second child, and writes the return. *)
Example writeNSSBlock_sample :
  writeNSSBlock Sample.util (Sample.program true) 2 1%nat 1 []
  = Done [TAB; EmptyString; "("; "var0"; ");" ++ LF; TAB; "return;" ++ LF].
Proof. reflexivity. Qed.

(** *** The outcome does not depend on the recursion budget, once it suffices *)

Lemma extends_refl (e : Emit) : Extends e e.
Proof. intros out _; reflexivity. Qed.

Lemma extends_trans (e1 e2 e3 : Emit) : Extends e1 e2 -> Extends e2 e3 -> Extends e1 e3.
Proof.
  intros H12 H23 out H; rewrite <- (H12 out H); apply H23; now rewrite (H12 out H).
Qed.

Lemma extends_andThen (e1 e1' e2 e2' : Emit) :
  Extends e1 e1' -> Extends e2 e2' -> Extends (e1 ;; e2) (e1' ;; e2').
Proof.
  intros H1 H2 out H; unfold andThen in *.
  destruct (e1 out) as [o| |] eqn:E.
  - rewrite (H1 out), E by (rewrite E; discriminate); now apply H2.
  - now rewrite (H1 out), E by (rewrite E; discriminate).
  - contradiction.
Qed.

Lemma extends_forEach {A : Type} (body body' : A -> Emit) (xs : list A) :
  (forall x, Extends (body x) (body' x)) -> Extends (forEach body xs) (forEach body' xs).
Proof.
  intros H; induction xs as [|x xs IH]; simpl;
    [apply extends_refl | apply extends_andThen; [apply H | apply IH]].
Qed.

Lemma extends_withSome {A : Type} (o : option A) (k k' : A -> Emit) :
  (forall a, Extends (k a) (k' a)) -> Extends (withSome o k) (withSome o k').
Proof. intros H; destruct o; simpl; [apply H | apply extends_refl]. Qed.

Ltac extends :=
  repeat first
    [ assumption
    | match goal with
      | H : context [Extends] |- Extends _ _ => simple apply H
      end
    | apply extends_andThen | apply extends_forEach; intros ?
    | apply extends_withSome; intros ?
    | match goal with
      | |- Extends (match ?x with _ => _ end) _ => destruct x
      end
    | apply extends_refl ].

Section Budget.

Variable util : Util.
Variable ncs : NCSFile.

Lemma extends_writeNSSBlock (fuel : nat) :
  forall block indent,
    Extends (writeNSSBlock util ncs fuel block indent)
            (writeNSSBlock util ncs (S fuel) block indent).
Proof.
  induction fuel as [|fuel IH]; intros block indent.
  - intros out H; now contradiction H.
  - cbn [writeNSSBlock].
    unfold writeNSSCall, writeNSSControl, writeNSSIfBlockWith, variableOf.
    extends.
Qed.

Lemma extends_createNSS (fuel fuel' : nat) :
  (fuel <= fuel')%nat -> Extends (createNSS util ncs fuel) (createNSS util ncs fuel').
Proof.
  induction 1 as [|fuel' _ IH]; [apply extends_refl|].
  apply (extends_trans _ _ _ IH).
  pose proof (extends_writeNSSBlock fuel').
  unfold createNSS, writeNSSSubRoutine; extends.
Qed.

End Budget.

(** C9: two runs of the same operation on the same program with the same flags
    append the same writes to their streams, whatever the streams held
    before.  The listing and the assembly always return; the dot graph and
    the NSS source return on both streams or are undefined on both; and a
    run of the NSS writer that stays within its recursion budget has the same
    outcome under every larger budget. *)
Theorem emission_deterministic (util : Util) (ncs : NCSFile)
    (printStack printControlTypes : bool) (fuel : nat) (out1 out2 : Sink) :
  (exists w, createListing util ncs printStack out1 = Done (out1 ++ w)%list
             /\ createListing util ncs printStack out2 = Done (out2 ++ w)%list)
  /\ (exists w, createAssembly util ncs printStack out1 = Done (out1 ++ w)%list
                /\ createAssembly util ncs printStack out2 = Done (out2 ++ w)%list)
  /\ SameOutcome (createDot util ncs printControlTypes)
  /\ SameOutcome (createNSS util ncs fuel)
  /\ (forall fuel', (fuel <= fuel')%nat ->
                    Extends (createNSS util ncs fuel) (createNSS util ncs fuel')).
Proof.
  split; [|split; [|split; [|split]]].
  - eexists; split; apply writes_createListing.
  - eexists; split; apply writes_createAssembly.
  - apply framed_same, framed_createDot.
  - apply framed_same, framed_createNSS.
  - intros fuel'; apply extends_createNSS.
Qed.

(** The four writers on the sample program. *)
Example createListing_sample :
  createListing Sample.util (Sample.program true) true []
  = Done ["; 1 bytes, 1 instructions" ++ LF ++ LF;
          UString.make " " 36; "; .--- Stack:    0 ---" ++ LF;
          UString.make " " 36; "; '--- ---------- ---" ++ LF;
          "  00000000 20 00" ++ UString.make " " 21 ++ " RETN" ++ LF;
          "  -------- -------------------------- ---" ++ LF].
Proof. reflexivity. Qed.

Example createDot_sample :
  createDot Sample.util (Sample.program true) false []
  = Done ["digraph {" ++ LF; "  overlap=false" ++ LF; "  concentrate=true" ++ LF;
          "  splines=ortho" ++ LF ++ LF;
          "  subgraph cluster_s00000000 {" ++ LF ++ "    style=filled" ++ LF
          ++ "    color=lightgrey" ++ LF;
          "    label=" ++ DQUOTE ++ "void main()" ++ DQUOTE ++ LF ++ LF;
          "    " ++ DQUOTE ++ "b00000000_0" ++ DQUOTE ++ " ";
          "[ shape=" ++ DQUOTE ++ "box" ++ DQUOTE ++ " label=" ++ DQUOTE
          ++ "loc_00000000:\l  RETN\l" ++ DQUOTE ++ " ]" ++ LF;
          "  }" ++ LF ++ LF;
          "}" ++ LF].
Proof. reflexivity. Qed.

Example createNSS_sample :
  createNSS Sample.util (Sample.program true) 1 []
  = Done ["// Decompiled using ncsdis"; LF ++ LF; LF ++ LF; "void main()"; " {" ++ LF; "}"].
Proof. reflexivity. Qed.

Example composeString_samples :
  composeString 0 = "0" /\ composeString 7 = "7" /\ composeString 1234 = "1234".
Proof. repeat split; reflexivity. Qed.

Example format_samples :
  UString.format "b%08X_%s" [UString.AU32 256; UString.AStr "2"] = "b00000100_2"
  /\ UString.format "%08X" [UString.AU32 3735928559] = "DEADBEEF"
  /\ UString.format "[%-6s|%4s]" [UString.AStr "ab"; UString.AStr "cd"] = "[ab    |  cd]".
Proof. repeat split; reflexivity. Qed.

Example quoteString_sample :
  quoteString ("a" ++ DQUOTE ++ "b" ++ BACKSLASH)
  = "a" ++ BACKSLASH ++ DQUOTE ++ "b" ++ BACKSLASH ++ BACKSLASH.
Proof. reflexivity. Qed.

Lemma emission_deterministic_witness :
  (exists w, createListing Sample.util (Sample.program true) true [] = Done ([] ++ w)%list
             /\ createListing Sample.util (Sample.program true) true ["x"]
                = Done (["x"] ++ w)%list)
  /\ (exists w, createAssembly Sample.util (Sample.program true) true [] = Done ([] ++ w)%list
                /\ createAssembly Sample.util (Sample.program true) true ["x"]
                   = Done (["x"] ++ w)%list)
  /\ SameOutcome (createDot Sample.util (Sample.program true) false)
  /\ SameOutcome (createNSS Sample.util (Sample.program true) 1)
  /\ (forall fuel', (1 <= fuel')%nat ->
                    Extends (createNSS Sample.util (Sample.program true) 1)
                            (createNSS Sample.util (Sample.program true) fuel')).
Proof.
  exact (emission_deterministic Sample.util (Sample.program true) true false 1 [] ["x"]).
Defined.

(** *** Further properties: quoting and control tags *)

Lemma quoteString_app (s t : string) :
  quoteString (s ++ t) = quoteString s ++ quoteString t.
Proof.
  induction s as [|c s IH]; [reflexivity|]; simpl.
  destruct (Ascii.eqb c "092"); [|destruct (Ascii.eqb c "034")]; simpl; now rewrite IH.
Qed.

(** X1: quoteString loses nothing: reading the escapes back gives the string
    that was quoted, so two different strings have different quotations; the
    quotation is at least as long as the string and at most twice as long. *)
Theorem quoteString_round_trip (s : string) :
  unquote (quoteString s) = s
  /\ (forall t, quoteString s = quoteString t -> s = t)
  /\ (String.length s <= String.length (quoteString s) <= 2 * String.length s)%nat.
Proof.
  assert (Hback : forall u, unquote (quoteString u) = u).
  { induction u as [|c u IH]; [reflexivity|]; simpl.
    destruct (Ascii.eqb_spec c "092") as [->|Hb]; [simpl; now rewrite IH|].
    destruct (Ascii.eqb_spec c "034") as [->|Hq]; [simpl; now rewrite IH|].
    simpl; apply Ascii.eqb_neq in Hb; now rewrite Hb, IH. }
  split; [apply Hback|split].
  - intros t H; rewrite <- (Hback s), <- (Hback t); now rewrite H.
  - induction s as [|c s IH]; simpl; [lia|].
    destruct (Ascii.eqb c "092"); [|destruct (Ascii.eqb c "034")]; simpl; lia.
Qed.

(** X2: in the result of quoteString every quotation mark and every backslash
    is escaped by a backslash before it, whatever the string holds, also after
    quoted strings are put one after the other. *)
Theorem quoteString_escaped (s t : string) :
  escaped (quoteString s) = true
  /\ escaped (quoteString s ++ quoteString t) = true.
Proof.
  assert (H : forall u, escaped (quoteString u) = true).
  { induction u as [|c u IH]; [reflexivity|]; simpl.
    destruct (Ascii.eqb c "092") eqn:Hb; [simpl; exact IH|].
    destruct (Ascii.eqb c "034") eqn:Hq; [simpl; exact IH|].
    simpl; now rewrite Hb, Hq. }
  split; [apply H | rewrite <- quoteString_app; apply H].
Qed.

Lemma getBlockControl_fold (cs : list ControlStructure) (acc : string) :
  fold_left (fun control c => (control ++ controlTag (ctype c)) ++ "\n") cs acc
  = acc ++ controlLines cs.
Proof.
  revert acc; induction cs as [|c cs IH]; intros acc; simpl.
  - now rewrite append_nil_r.
  - now rewrite IH, !append_assoc.
Qed.

(** X3: the control prefix of a block is empty exactly when the block has no
    control structure; otherwise it is the tag of every control structure in
    order, each followed by backslash-n, and one more backslash-n at the
    end. *)
Theorem getBlockControl_lines (b : Block) :
  (getBlockControl b = EmptyString <-> controls b = [])
  /\ (controls b <> [] -> getBlockControl b = controlLines (controls b) ++ "\n").
Proof.
  unfold getBlockControl; rewrite getBlockControl_fold.
  change (EmptyString ++ controlLines (controls b)) with (controlLines (controls b)).
  destruct (controls b) as [|c cs]; [split; [tauto | congruence]|].
  assert (E : UString.empty (controlLines (c :: cs)) = false)
    by (simpl; destruct (ctype c); reflexivity).
  rewrite E; split; [|reflexivity].
  split; [|discriminate].
  simpl; destruct (ctype c); discriminate.
Qed.

Lemma getBlockControl_lines_witness :
  getBlockControl Sample.callBlock = controlLines [Sample.returnControl] ++ "\n".
Proof.
  apply (proj2 (getBlockControl_lines Sample.callBlock)); discriminate.
Defined.

(** X4: the colours of the edges tell the kinds of edge apart: two kinds with
    the same colour attribute are the same kind. *)
Theorem edgeColor_injective (t1 t2 : BlockEdgeType) :
  edgeColor t1 = edgeColor t2 -> t1 = t2.
Proof. destruct t1, t2; intros H; try reflexivity; discriminate H. Qed.

Lemma edgeColor_injective_witness :
  kBlockEdgeTypeDead = kBlockEdgeTypeDead.
Proof. apply (edgeColor_injective kBlockEdgeTypeDead kBlockEdgeTypeDead); reflexivity. Defined.

(** *** Further properties: the dot graph *)

Lemma contents_cons (x : string) (r : list string) : contents (x :: r) = x ++ contents r.
Proof. destruct r; simpl; [now rewrite append_nil_r | reflexivity]. Qed.

Lemma contents_app (a b : list string) : contents (a ++ b)%list = contents a ++ contents b.
Proof.
  induction a as [|x a IH]; [reflexivity|].
  change ((x :: a) ++ b)%list with (x :: (a ++ b))%list.
  now rewrite !contents_cons, IH, append_assoc.
Qed.

Lemma contents_all_empty (l : list string) :
  Forall (eq EmptyString) l -> contents l = EmptyString.
Proof.
  induction 1 as [|x l <- _ IH]; [reflexivity | now rewrite contents_cons, IH].
Qed.

(** A loop is undefined once one of its iterations is, when no iteration uses
    up the recursion budget. *)
Lemma forEach_fault {A : Type} (body : A -> Emit) (x : A) (xs : list A) :
  (forall y, Bounded (body y)) -> In x xs -> (forall out, body x out = Fault) ->
  forall out, forEach body xs out = Fault.
Proof.
  intros Hb Hin Hx; induction xs as [|y xs IH]; intros out; [contradiction|].
  simpl; unfold andThen.
  destruct Hin as [->|Hin]; [now rewrite Hx|].
  pose proof (Hb y out); destruct (body y out); [now apply IH | reflexivity | contradiction].
Qed.

(** A loop that returns has returned from every iteration. *)
Lemma forEach_done {A : Type} (body : A -> Emit) (xs : list A) :
  forall out out', forEach body xs out = Done out' ->
                   forall x, In x xs -> exists o o', body x o = Done o'.
Proof.
  induction xs as [|y xs IH]; intros out out' H x Hin; [contradiction|].
  simpl in H; unfold andThen in H.
  destruct (body y out) as [o| |] eqn:E; try discriminate.
  destruct Hin as [<-|Hin]; [now exists out, o | now apply (IH o out')].
Qed.

Lemma skipn_all_empty (l : list string) (a b : nat) :
  (a <= b)%nat -> Forall (eq EmptyString) (skipn a l) -> Forall (eq EmptyString) (skipn b l).
Proof.
  intros Hab H; replace b with ((b - a) + a)%nat by lia.
  rewrite <- skipn_skipn.
  apply Forall_forall; intros x Hx; rewrite Forall_forall in H; apply H.
  rewrite <- (firstn_skipn (b - a) (skipn a l)); apply in_or_app; now right.
Qed.

(** Appending to the label at idx, when the labels after it are empty,
    appends to the concatenation of the labels. *)
Lemma update_appends (x : string) (labels : list string) :
  forall idx labels',
    vectorUpdate labels idx (fun l => l ++ x) = Some labels' ->
    Forall (eq EmptyString) (skipn (S idx) labels) ->
    contents labels' = contents labels ++ x
    /\ skipn (S idx) labels' = skipn (S idx) labels.
Proof.
  induction labels as [|l labels IH]; intros [|idx] labels' H Hempty;
    simpl in H; try discriminate.
  - injection H as <-; simpl skipn in *.
    rewrite !contents_cons, (contents_all_empty _ Hempty), !append_nil_r; now split.
  - destruct (vectorUpdate labels idx _) as [r|] eqn:E; [|discriminate].
    injection H as <-.
    destruct (IH idx r E Hempty) as [Hc Hs].
    rewrite !contents_cons, Hc, append_assoc; now split.
Qed.

Section DotLabels.

Variable util : Util.
Variable ncs : NCSFile.

Lemma label_loop_contents (L : nat) (ips : list InstructionPtr) :
  forall s labels labels',
    Forall (eq EmptyString) (skipn (S (s / L)) labels) ->
    fold_left
      (fun labels (entry : nat * InstructionPtr) =>
         let (i, ip) := entry in
         match labels with
         | None => None
         | Some labels =>
             if (L =? 0)%nat then None
             else vectorUpdate labels (i / L) (fun l =>
                    l ++ ("  " ++ quoteString (formatInstruction util (instructionAt ncs ip)
                                                                  (getGame ncs))
                          ++ "\l"))
         end) (combine (seq s (length ips)) ips) (Some labels) = Some labels' ->
    contents labels' = contents labels ++ instructionLines util ncs ips.
Proof.
  induction ips as [|ip ips IH]; intros s labels labels' Hempty H.
  - injection H as <-; now rewrite append_nil_r.
  - cbn [length seq combine fold_left] in H.
    destruct (Nat.eqb_spec L 0) as [HL|HL].
    + exfalso; clear -H; induction (combine _ ips) as [|[i q] l IHl];
        [discriminate | now apply IHl].
    + destruct (vectorUpdate labels (s / L) _) as [labels1|] eqn:E.
      * destruct (update_appends _ _ _ _ E Hempty) as [Hc Hs].
        assert (Hnext : Forall (eq EmptyString) (skipn (S (S s / L)) labels1)).
        { apply (skipn_all_empty _ (S (s / L))).
          - apply le_n_S, Nat.Div0.div_le_mono; lia.
          - now rewrite Hs. }
        rewrite (IH (S s) labels1 labels' Hnext H), Hc.
        now rewrite append_assoc.
      * exfalso; clear -H; induction (combine _ ips) as [|[i q] l IHl];
          [discriminate | now apply IHl].
Qed.

(** X5: dividing a block over several nodes loses and reorders nothing: the
    labels of the nodes of a block, one after the other, are the control
    prefix (when it is asked for), the label line of the block and the quoted
    line of every instruction of the block, in the order of the block. *)
Theorem dotLabels_contents (pct : bool) (b : Block) (labels : list string) :
  dotLabels util ncs pct b = Some labels ->
  contents labels
  = (if pct then getBlockControl b else EmptyString)
    ++ blockHeadLine util ncs b ++ instructionLines util ncs (binstructions b).
Proof.
  unfold dotLabels, blockHeadLine.
  set (n := calculateNodesPerBlock _).
  rewrite repeat_length.
  destruct (Nat.eqb_spec n 0) as [|Hn]; [discriminate|].
  set (L := ceil _).
  destruct n as [|n]; [contradiction|]; cbn [repeat vectorUpdate].
  intros H.
  match type of H with
  | context [fold_left ?f _ _] => set (step := f) in *
  end.
  assert (Hfold : forall name,
             fold_left step (combine (seq 0 (length (binstructions b))) (binstructions b))
               (Some (((if pct then getBlockControl b else EmptyString) ++ name ++ ":\l")
                      :: repeat EmptyString n)) = Some labels ->
             contents labels
             = (if pct then getBlockControl b else EmptyString)
               ++ (name ++ ":\l") ++ instructionLines util ncs (binstructions b)).
  { intros name Hf.
    assert (Hrest : Forall (eq EmptyString) (repeat EmptyString n))
      by (apply Forall_forall; intros x Hx; now apply repeat_spec in Hx).
    assert (Hstart : Forall (eq EmptyString)
                       (skipn (S (0 / L))
                          (((if pct then getBlockControl b else EmptyString) ++ name ++ ":\l")
                           :: repeat EmptyString n)))
      by (apply (skipn_all_empty _ 1); [lia | exact Hrest]).
    rewrite (label_loop_contents L _ 0 _ _ Hstart Hf).
    now rewrite contents_cons, (contents_all_empty _ Hrest), append_nil_r, append_assoc. }
  destruct (UString.empty (formatJumpLabelNameBlock util b)).
  - destruct (binstructions b) as [|front rest] eqn:Eb; [discriminate H|].
    cbn [hd_error option_map] in H; now apply Hfold.
  - now apply Hfold.
Qed.

End DotLabels.

Lemma dotLabels_contents_witness :
  contents
    ["loc_00000000:\l  RETN\l  RETN\l  RETN\l  RETN\l  RETN\l  RETN\l";
     "  RETN\l  RETN\l  RETN\l  RETN\l  RETN\l"]
  = EmptyString
    ++ blockHeadLine Sample.util (Sample.program false) Sample.bigBlock
    ++ instructionLines Sample.util (Sample.program false) (binstructions Sample.bigBlock).
Proof.
  apply (dotLabels_contents Sample.util (Sample.program false) false Sample.bigBlock).
  reflexivity.
Defined.

(** X6: a block with k >= 1 instructions is divided into nodes of at most 10
    instructions each; every instruction falls into one of the nodes, and the
    last node, hence every node, receives an instruction. *)
Theorem dot_lines_per_node (k : nat) :
  (1 <= k)%nat ->
  let n := calculateNodesPerBlock k in
  let linesPerNode := ceil (toDouble k / toDouble n)%Q in
  (1 <= linesPerNode <= 10)%nat
  /\ (forall i, (i < k)%nat -> (i / linesPerNode < n)%nat)
  /\ ((k - 1) / linesPerNode = n - 1)%nat.
Proof.
  intros Hk n L.
  pose proof (calculateNodesPerBlock_ceiling k) as Hn; fold n in Hn.
  assert (HL : L = ((k + n - 1) / n)%nat) by (apply ceil_div; lia).
  pose proof (Nat.div_mod_eq (k + n - 1) n) as Hd.
  pose proof (Nat.mod_upper_bound (k + n - 1) n ltac:(lia)) as Hm.
  rewrite <- HL in Hd.
  assert (Hlow : (1 <= L)%nat) by nia.
  assert (Hhigh : (L <= 10)%nat) by nia.
  assert (Hcover : (k <= n * L)%nat) by nia.
  split; [lia|split].
  - intros i Hi; apply Nat.Div0.div_lt_upper_bound; nia.
  - apply Nat.le_antisymm.
    + assert ((k - 1) / L < n)%nat by (apply Nat.Div0.div_lt_upper_bound; nia); lia.
    + apply Nat.div_le_lower_bound; [lia|]; nia.
Qed.

Lemma dot_lines_per_node_witness :
  (1 <= 6 <= 10)%nat
  /\ (forall i, (i < 11)%nat -> (i / 6 < 2)%nat)
  /\ ((11 - 1) / 6 = 2 - 1)%nat.
Proof. apply (dot_lines_per_node 11); lia. Defined.

Lemma andThen_ext (e1 e2 e2' : Emit) (out : Sink) :
  (forall o, e2 o = e2' o) -> (e1 ;; e2) out = (e1 ;; e2') out.
Proof. intros H; unfold andThen; destruct (e1 out); [apply H | reflexivity | reflexivity]. Qed.

Lemma andThen_ext_l (e1 e1' e2 : Emit) (out : Sink) :
  (forall o, e1 o = e1' o) -> (e1 ;; e2) out = (e1' ;; e2) out.
Proof. intros H; unfold andThen; now rewrite H. Qed.

Lemma andThen_fault_r (e1 e2 : Emit) :
  Bounded e1 -> (forall o, e2 o = Fault) -> forall o, (e1 ;; e2) o = Fault.
Proof.
  intros Hb H o; unfold andThen; pose proof (Hb o).
  destruct (e1 o); [apply H | reflexivity | contradiction].
Qed.

Lemma andThen_fault_l (e1 e2 : Emit) :
  (forall o, e1 o = Fault) -> forall o, (e1 ;; e2) o = Fault.
Proof. intros H o; unfold andThen; now rewrite H. Qed.

(** The iterations that leave the stream as it is can be left out. *)
Lemma forEach_filter {A : Type} (body : A -> Emit) (keep : A -> bool) (xs : list A) :
  (forall x, keep x = false -> forall o, body x o = Done o) ->
  forall o, forEach body xs o = forEach body (filter keep xs) o.
Proof.
  intros H; induction xs as [|x xs IH]; intros o; [reflexivity|].
  cbn [filter forEach]; destruct (keep x) eqn:E.
  - cbn [forEach]; apply andThen_ext, IH.
  - unfold andThen; rewrite (H x E); apply IH.
Qed.

Section DotGraph.

Variable util : Util.
Variable ncs : NCSFile.

Lemma bounded_writeDotBlock (pct : bool) (b : Block) :
  Bounded (writeDotBlock util ncs pct b).
Proof. unfold writeDotBlock, forIndexed, forUpTo.
  apply bounded_withSome; intros labels.
  apply bounded_andThen; [|bounded].
  generalize 0%nat; induction labels as [|l labels IH]; intros i; simpl; bounded.
  apply IH.
Qed.

Lemma bounded_writeDotBlocks (pct : bool) (blocks : list BlockPtr) :
  Bounded (writeDotBlocks util ncs pct blocks).
Proof.
  induction blocks as [|b rest IH]; cbn [writeDotBlocks]; [apply bounded_skip|].
  apply bounded_andThen; [apply bounded_writeDotBlock|].
  apply bounded_andThen; [destruct rest; bounded | apply IH].
Qed.

Lemma bounded_writeDotClusteredBlocks (pct : bool) :
  Bounded (writeDotClusteredBlocks util ncs pct).
Proof.
  unfold writeDotClusteredBlocks.
  apply bounded_forEach; intros s.
  destruct (sblocks s); [apply bounded_skip|].
  destruct (_ =? 0)%nat; [apply bounded_skip|].
  cbv zeta; repeat (apply bounded_andThen; [apply bounded_write|]).
  apply bounded_andThen; [apply bounded_writeDotBlocks | apply bounded_write].
Qed.

Lemma bounded_writeDotBlockEdges_body (b : Block) :
  Bounded (if (length (children b) =? length (childrenTypes b))%nat
           then forUpTo (length (children b)) (writeDotBlockEdge ncs b)
           else fault).
Proof. unfold forUpTo, writeDotBlockEdge; bounded. Qed.

(** X7: writeDotBlocks writes the node statements of its blocks with one line
    feed between two blocks and none after the last, when every block has
    instructions; if one of the blocks has none, writing the nodes is
    undefined. *)
Theorem writeDotBlocks_separated (pct : bool) (blocks : list BlockPtr) :
  ((forall bp, In bp blocks -> (1 <= length (binstructions (blockAt ncs bp)))%nat) ->
   Writes (writeDotBlocks util ncs pct blocks)
     (separated LF
        (map (fun bp => writesOf (writeDotBlock util ncs pct (blockAt ncs bp))) blocks)))
  /\ (forall bp, In bp blocks -> binstructions (blockAt ncs bp) = [] ->
                 forall out, writeDotBlocks util ncs pct blocks out = Fault).
Proof.
  split.
  - induction blocks as [|bp rest IH]; intros H; [apply writes_skip|].
    destruct (writeDotBlock_statements util ncs pct (blockAt ncs bp)
                (H bp (or_introl eq_refl))) as [labels [_ Hw]].
    apply writes_writesOf in Hw.
    cbn [writeDotBlocks map separated].
    specialize (IH (fun q Hq => H q (or_intror Hq))).
    destruct rest as [|bp2 rest].
    + eapply writes_eq.
      * apply (writes_andThen _ _ _ [] Hw).
        apply (writes_andThen _ _ [] [] writes_skip), writes_skip.
      * now rewrite !app_nil_r.
    + apply (writes_andThen _ _ _ _ Hw).
      apply (writes_andThen _ _ [_] _ (writes_write _)), IH.
  - induction blocks as [|bp0 rest IH]; intros bp Hin Hempty out; [contradiction|].
    cbn [writeDotBlocks]; unfold andThen at 1.
    destruct Hin as [->|Hin].
    + unfold writeDotBlock; now rewrite (dotLabels_empty_block util ncs pct _ Hempty).
    + pose proof (bounded_writeDotBlock pct (blockAt ncs bp0) out) as Hb.
      destruct (writeDotBlock _ _ _ _ out) as [o| |]; [|reflexivity|contradiction].
      unfold andThen; destruct rest as [|bp2 rest]; [contradiction|].
      now apply (IH bp).
Qed.

(** X8: createDot has the same outcome as on the program whose list of
    subroutines leaves out the subroutines without blocks and those whose
    first block has no instructions, the list of blocks being the same in
    both programs. So such a subroutine gets no cluster, and no node
    statement is written on its account for the blocks of its list; the edges
    of these blocks are written all the same, as edges of blocks of the
    program. *)
Theorem createDot_skips_hollow (pct : bool) (out : Sink) :
  createDot util ncs pct out
  = createDot util
      (withSubRoutines ncs (filter (hasEntryCode ncs) (getSubRoutines ncs))) pct out.
Proof.
  unfold createDot.
  do 4 (apply andThen_ext; intros ?).
  apply andThen_ext_l; intros before.
  unfold writeDotClusteredBlocks.
  etransitivity; [apply (forEach_filter _ (hasEntryCode ncs)) | reflexivity].
  intros s Hs o'; unfold hasEntryCode in Hs.
  destruct (sblocks s); [reflexivity|].
  apply negb_false_iff in Hs; now rewrite Hs.
Qed.

(** X9: createDot does not return on a program with a block whose children and
    edge types differ in number: the assertion of writeDotBlockEdges fails, if
    the nodes were not undefined before. *)
Theorem createDot_lopsided_block (pct : bool) (b : Block) :
  In b (getBlocks ncs) ->
  length (children b) <> length (childrenTypes b) ->
  forall out, createDot util ncs pct out = Fault.
Proof.
  intros Hin Hlen; unfold createDot.
  do 4 (apply andThen_fault_r; [apply bounded_write|]).
  apply andThen_fault_r; [apply bounded_writeDotClusteredBlocks|].
  apply andThen_fault_l; unfold writeDotBlockEdges.
  apply (forEach_fault _ b); try assumption.
  - intros y; apply bounded_writeDotBlockEdges_body.
  - intros o; apply Nat.eqb_neq in Hlen; now rewrite Hlen.
Qed.

End DotGraph.

Lemma writeDotBlocks_separated_witness :
  Writes (writeDotBlocks Sample.util (Sample.program false) false [0%nat; 1%nat])
    (separated LF
       (map (fun bp => writesOf (writeDotBlock Sample.util (Sample.program false) false
                                   (Sample.blockStore bp))) [0%nat; 1%nat]))
  /\ forall out,
       writeDotBlocks Sample.util Sample.hollowProgram false [0%nat; 2%nat] out = Fault.
Proof.
  split.
  - apply (proj1 (writeDotBlocks_separated Sample.util (Sample.program false) false
                    [0%nat; 1%nat])).
    intros bp [<-|[<-|[]]]; simpl; lia.
  - apply (proj2 (writeDotBlocks_separated Sample.util Sample.hollowProgram false
                    [0%nat; 2%nat]) 2%nat); [right; now left | reflexivity].
Defined.

Lemma createDot_lopsided_block_witness :
  createDot Sample.util
    (Sample.programWith [Sample.retnBlock; Sample.lopsidedBlock] [Sample.mainSub])
    false [] = Fault.
Proof.
  apply (createDot_lopsided_block Sample.util _ false Sample.lopsidedBlock).
  - right; now left.
  - discriminate.
Defined.

Example createDot_skips_hollow_sample :
  createDot Sample.util
    (Sample.programWith [Sample.retnBlock] [Sample.blocklessSub; Sample.mainSub]) false []
  = createDot Sample.util (Sample.programWith [Sample.retnBlock] [Sample.mainSub]) false [].
Proof. reflexivity. Qed.

Lemma sizeSub_pred (n : nat) :
  (1 <= n)%nat -> (N.of_nat n <= 2 ^ 64)%N -> sizeSub (N.of_nat n) 1 = N.of_nat (n - 1).
Proof.
  intros Hn Hmax; unfold sizeSub.
  change (1 mod 2 ^ 64)%N with 1%N.
  replace (N.of_nat n + 2 ^ 64 - 1)%N with (N.of_nat (n - 1) + 1 * 2 ^ 64)%N by lia.
  rewrite N.Div0.mod_add; apply N.mod_small; lia.
Qed.

Lemma length_flat_map_const {A B : Type} (f : A -> list B) (l : list A) (c : nat) :
  (forall x, In x l -> length (f x) = c) -> length (flat_map f l) = (c * length l)%nat.
Proof.
  induction l as [|x l IH]; intros H; simpl; [lia|].
  rewrite length_app, (H x (or_introl eq_refl)), IH by (intros y Hy; apply H; now right).
  lia.
Qed.

Section DotEdges.

Variable ncs : NCSFile.

(** X10: the edge from a block to its i-th child starts at the last node the
    block was divided into and ends at the first node of the child, when the
    block has instructions (fewer than 2^64, the range of a size_t).  For a
    block without instructions the index of the last node wraps around: the
    edge starts at node 18446744073709551615, which writeDotBlocks never
    writes. *)
Theorem dot_edge_ends (b : Block) (i : nat) (cp : BlockPtr) (t : BlockEdgeType) :
  nth_error (children b) i = Some cp ->
  nth_error (childrenTypes b) i = Some t ->
  let k := length (binstructions b) in
  let child := blockAt ncs cp in
  ((1 <= k)%nat -> (N.of_nat k <= 2 ^ 64)%N ->
   exists attr,
     Writes (writeDotBlockEdge ncs b i)
       ["  " ++ dotName b (calculateNodesPerBlock k - 1) ++ " -> " ++ dotName child 0; attr])
  /\ (k = 0%nat ->
      exists attr,
        Writes (writeDotBlockEdge ncs b i)
          ["  b" ++ hex8 (baddress b) ++ "_18446744073709551615 -> " ++ dotName child 0;
           attr]).
Proof.
  intros Hc Ht k child; split.
  - intros Hk Hmax; eexists.
    unfold writeDotBlockEdge; rewrite Hc, Ht; cbn [withSome]; fold child; fold k.
    pose proof (calculateNodesPerBlock_ceiling k) as Hn.
    rewrite sizeSub_pred by lia.
    run_format.
    apply (writes_andThen _ _ [_] [_]); [|apply writes_write].
    eapply writes_eq; [apply writes_write|].
    unfold dotName; cbn [append]; rewrite ?append_assoc; reflexivity.
  - intros Hk; eexists.
    unfold writeDotBlockEdge; rewrite Hc, Ht; cbn [withSome]; fold child; fold k.
    rewrite Hk.
    change (sizeSub (N.of_nat (calculateNodesPerBlock 0)) 1) with 18446744073709551615%N.
    change (composeString 18446744073709551615) with "18446744073709551615".
    run_format.
    apply (writes_andThen _ _ [_] [_]); [|apply writes_write].
    eapply writes_eq; [apply writes_write|].
    unfold dotName; cbn [append]; rewrite ?append_assoc; reflexivity.
Qed.

(** X11: when the children and the edge types of every block pair up,
    writeDotBlockEdges returns and writes one edge statement, of two writes,
    for every child of every block. *)
Theorem writeDotBlockEdges_count :
  (forall b, In b (getBlocks ncs) -> length (children b) = length (childrenTypes b)) ->
  exists w,
    Writes (writeDotBlockEdges ncs) w
    /\ length w = (2 * list_sum (map (fun b => length (children b)) (getBlocks ncs)))%nat.
Proof.
  unfold writeDotBlockEdges; generalize (getBlocks ncs) as blocks; intros blocks Hpair.
  exists (flat_map (fun b => flat_map (fun i => writesOf (writeDotBlockEdge ncs b i))
                               (seq 0 (length (children b)))) blocks).
  assert (Hedge : forall b i, In b blocks -> (i < length (children b))%nat ->
                              exists x y, Writes (writeDotBlockEdge ncs b i) [x; y]).
  { intros b i Hb Hi.
    destruct (nth_error (children b) i) as [cp|] eqn:Hc;
      [|apply nth_error_None in Hc; lia].
    destruct (nth_error (childrenTypes b) i) as [t|] eqn:Ht;
      [|apply nth_error_None in Ht; rewrite <- (Hpair b Hb) in Ht; lia].
    do 2 eexists; unfold writeDotBlockEdge; rewrite Hc, Ht; cbn [withSome].
    apply (writes_andThen _ _ [_] [_]); apply writes_write. }
  split.
  - apply writes_forEach; intros b Hb.
    rewrite (Hpair b Hb), Nat.eqb_refl, <- (Hpair b Hb).
    apply writes_forEach; intros i Hi; apply in_seq in Hi.
    destruct (Hedge b i Hb ltac:(lia)) as [x [y Hw]].
    exact (writes_writesOf _ _ Hw).
  - clear Hpair; induction blocks as [|b bs IH]; [reflexivity|].
    cbn [flat_map map list_sum]; rewrite length_app, IH
      by (intros c j Hc Hj; apply Hedge; [now right | exact Hj]).
    change (list_sum (?a :: ?l)) with (a + list_sum l)%nat.
    enough (length (flat_map (fun i => writesOf (writeDotBlockEdge ncs b i))
                      (seq 0 (length (children b)))) = (2 * length (children b))%nat) by lia.
    assert (Hall : forall i, In i (seq 0 (length (children b))) ->
                             length (writesOf (writeDotBlockEdge ncs b i)) = 2%nat).
    { intros i Hi; apply in_seq in Hi.
      destruct (Hedge b i (or_introl eq_refl) ltac:(lia)) as [x [y Hw]].
      unfold writesOf; now rewrite (Hw []). }
    now rewrite (length_flat_map_const _ _ 2 Hall), length_seq.
Qed.

End DotEdges.

Lemma dot_edge_ends_witness :
  (exists attr,
      Writes (writeDotBlockEdge (Sample.program false) Sample.callBlock 0)
        ["  " ++ dotName Sample.callBlock 0 ++ " -> " ++ dotName Sample.retnBlock 0; attr])
  /\ exists attr,
       Writes (writeDotBlockEdge Sample.hollowProgram Sample.hollowBlock 0)
         ["  b" ++ hex8 32 ++ "_18446744073709551615 -> " ++ dotName Sample.retnBlock 0;
          attr].
Proof.
  split.
  - apply (proj1 (dot_edge_ends (Sample.program false) Sample.callBlock 0 0%nat
                    kBlockEdgeTypeConditionalFalse eq_refl eq_refl));
      [simpl; lia | vm_compute; discriminate].
  - apply (proj2 (dot_edge_ends Sample.hollowProgram Sample.hollowBlock 0 0%nat
                    kBlockEdgeTypeUnconditional eq_refl eq_refl)); reflexivity.
Defined.

Lemma writeDotBlockEdges_count_witness :
  exists w,
    Writes (writeDotBlockEdges Sample.hollowProgram) w
    /\ length w = (2 * 1)%nat.
Proof.
  apply (writeDotBlockEdges_count Sample.hollowProgram).
  intros b [<-|[<-|[]]]; reflexivity.
Defined.

(** *** Further properties: the NSS source *)

Lemma returns_write (s : string) : Returns (write s).
Proof. eexists; apply writes_write. Qed.

Lemma returns_skip : Returns skip.
Proof. eexists; apply writes_skip. Qed.

Lemma returns_andThen (e1 e2 : Emit) : Returns e1 -> Returns e2 -> Returns (e1 ;; e2).
Proof. intros [w1 H1] [w2 H2]; eexists; now apply writes_andThen. Qed.

Lemma returns_if (c : bool) (e1 e2 : Emit) :
  Returns e1 -> Returns e2 -> Returns (if c then e1 else e2).
Proof. now destruct c. Qed.

Lemma returns_forEach {A : Type} (body : A -> Emit) (xs : list A) :
  (forall x, In x xs -> Returns (body x)) -> Returns (forEach body xs).
Proof.
  intros H; exists (flat_map (fun x => writesOf (body x)) xs).
  apply writes_forEach; intros x Hx; destruct (H x Hx) as [w Hw].
  exact (writes_writesOf _ _ Hw).
Qed.

Lemma returns_writeNSSIndent (indent : nat) : Returns (writeNSSIndent indent).
Proof. eexists; apply writes_writeNSSIndent. Qed.

Lemma back_some {A : Type} (v : list A) : (1 <= length v)%nat -> exists y, back v = Some y.
Proof.
  induction v as [|x v IH]; simpl; [lia|]; intros _.
  destruct v as [|z v]; [now exists x|].
  destruct (IH ltac:(simpl; lia)) as [y Hy]; exists y; exact Hy.
Qed.

Section NSSInstructions.

Variable util : Util.
Variable ncs : NCSFile.

Ltac returns :=
  repeat first
    [ apply returns_write | apply returns_skip | apply returns_writeNSSIndent
    | apply returns_andThen | apply returns_if
    | match goal with
      | |- Returns (match ?x with _ => _ end) => destruct x
      end ].

Lemma action_loop (i : Instruction) (p : nat) :
  let body := fun j =>
    variableOf ncs i j (fun v =>
      write (formatVariableName util v) ;;
      if (j <? p - 1)%nat then write ", " else skip) in
  ((p <= length (variables i))%nat -> Returns (forUpTo p body))
  /\ ((length (variables i) < p)%nat -> forall out, forUpTo p body out = Fault).
Proof.
  intros body; split; intros Hp.
  - apply returns_forEach; intros j Hj; apply in_seq in Hj.
    unfold body, variableOf.
    destruct (nth_error (variables i) j) eqn:E; [|apply nth_error_None in E; lia].
    cbn [withSome]; returns.
  - apply (forEach_fault _ (length (variables i))).
    + intros j; unfold body, variableOf; bounded.
    + apply in_seq; lia.
    + intros out; unfold body, variableOf.
      now rewrite (proj2 (nth_error_None _ _) (Nat.le_refl _)).
Qed.

(** X12: the NSS writer returns on an instruction exactly when the instruction
    has the variables its opcode makes the writer read: one for CONST and
    RSADD, two for the copies, three for the comparisons, the logic
    operations and NOT (which reads the first and the third), as many as the
    parameter count for ACTION, none for the opcodes it skips.  With fewer
    variables a read is out of range and the writer is undefined. *)
Theorem writeNSSInstruction_reads (i : Instruction) (indent : nat) :
  ((variablesRead i <= length (variables i))%nat ->
   Returns (writeNSSInstruction util ncs i indent))
  /\ ((length (variables i) < variablesRead i)%nat ->
      forall out, writeNSSInstruction util ncs i indent out = Fault).
Proof.
  unfold variablesRead, writeNSSInstruction, writeNSSBinary.
  destruct (opcode i) eqn:Eop;
    try (unfold variableOf;
         destruct (variables i) as [|v0 [|v1 [|v2 vs]]];
         cbn [length nth_error withSome];
         split; intros H; try lia; try (intros out; reflexivity); returns; fail).
  - (* ACTION *)
    fold (paramCountOf i).
    destruct (action_loop i (paramCountOf i)) as [Hloop Hfault].
    split; intros H.
    + apply returns_andThen; [apply returns_writeNSSIndent|].
      apply returns_andThen.
      * destruct (Nat.ltb_spec (paramCountOf i) (length (variables i))) as [Hlt|_];
          [|apply returns_skip].
        destruct (back_some (variables i) ltac:(lia)) as [r ->]; cbn [withSome]; returns.
      * do 2 (apply returns_andThen; [apply returns_write|]).
        apply returns_andThen; [now apply Hloop | apply returns_write].
    + apply andThen_fault_r; [unfold writeNSSIndent, forUpTo; bounded|].
      apply andThen_fault_r; [bounded|].
      do 2 (apply andThen_fault_r; [apply bounded_write|]).
      apply andThen_fault_l; now apply Hfault.
Qed.

End NSSInstructions.

Lemma writeNSSInstruction_reads_witness :
  Returns (writeNSSInstruction Sample.util (Sample.program true) Sample.actionInstr 1)
  /\ forall out,
       writeNSSInstruction Sample.util (Sample.program true) Sample.notInstr 1 out = Fault.
Proof.
  split.
  - apply (proj1 (writeNSSInstruction_reads Sample.util (Sample.program true)
                    Sample.actionInstr 1)).
    vm_compute; lia.
  - apply (proj2 (writeNSSInstruction_reads Sample.util (Sample.program true)
                    Sample.notInstr 1)).
    vm_compute; lia.
Defined.

Example writeNSSInstruction_action_sample :
  writeNSSInstruction Sample.util (Sample.program true) Sample.actionInstr 1 []
  = Done [TAB; "int var0 = "; "Action"; "("; "var0"; ", "; "var0"; ");" ++ LF].
Proof. reflexivity. Qed.

Lemma contents_tabs (indent : nat) : contents (tabs indent) = UString.make "009" indent.
Proof.
  unfold tabs; induction indent as [|n IH]; [reflexivity|].
  cbn [repeat]; now rewrite contents_cons, IH.
Qed.

(** Names written one by one, with a comma after each but the last, read as
    the names joined by commas. *)
Lemma comma_joined {A : Type} (f : A -> string) (total : nat) (vs : list A) :
  forall i, (i + length vs = total)%nat ->
    contents (indexedFrom i (fun j v => f v :: if (j <? total - 1)%nat then [", "] else [])
                          vs)
    = String.concat ", " (map f vs).
Proof.
  induction vs as [|v vs IH]; intros i Hi; [reflexivity|].
  cbn [indexedFrom map length] in *.
  change ((f v :: ?c) ++ ?r)%list with (f v :: (c ++ r)%list).
  rewrite contents_cons, contents_app, (IH (S i)) by lia.
  destruct vs as [|v2 vs].
  - destruct (Nat.ltb_spec i (total - 1)); [simpl in Hi; lia|].
    simpl; now rewrite append_nil_r.
  - destruct (Nat.ltb_spec i (total - 1)); [|simpl in Hi; lia].
    reflexivity.
Qed.

Lemma andThen_done (e1 e2 : Emit) (out out' : Sink) :
  (e1 ;; e2) out = Done out' -> exists o, e1 out = Done o /\ e2 o = Done out'.
Proof.
  unfold andThen; destruct (e1 out) as [o| |]; try discriminate; now exists o.
Qed.

Section NSSStatements.

Variable util : Util.
Variable ncs : NCSFile.

(** X13: the call statement of a block that ends in a subroutine call reads,
    after one tab per level of indentation, as the label of the branch target,
    an opening parenthesis, the names of the variables of the calling
    instruction joined by a comma and a space, a closing parenthesis and a
    semicolon; the writer then goes on to the second child at the same
    indentation. *)
Theorem nss_call_text (b : Block) (indent : nat) (t : BlockEdgeType)
    (ip target : InstructionPtr) (child : BlockPtr) :
  isSubRoutineCall util t = true ->
  back (binstructions b) = Some ip ->
  nth_error (branches (instructionAt ncs ip)) 0 = Some target ->
  nth_error (children b) 1 = Some child ->
  exists w,
    (forall self out,
        writeNSSCall util ncs self b indent t out = self child indent (out ++ w)%list)
    /\ contents w
       = UString.make "009" indent
         ++ formatJumpLabelName util (instructionAt ncs target) ++ "("
         ++ String.concat ", "
              (map (fun v => formatVariableName util (variableAt ncs v))
                   (variables (instructionAt ncs ip)))
         ++ ");" ++ LF.
Proof.
  intros Hcall Hback Hbranch Hchild.
  exists (callStatement util ncs (instructionAt ncs ip) (instructionAt ncs target) indent).
  split.
  - intros self out.
    rewrite (writeNSSCall_statement util ncs self b indent t ip target Hcall Hback Hbranch).
    now rewrite Hchild.
  - unfold callStatement.
    rewrite contents_app, contents_tabs, !contents_cons, contents_app.
    rewrite (comma_joined (fun v => formatVariableName util (variableAt ncs v))
               (length (variables (instructionAt ncs ip)))) by reflexivity.
    reflexivity.
Qed.

(** X14: createNSS returns only on a program each of whose subroutines has at
    most one return instruction and at least one block, and, when there is a
    subroutine, only with a recursion budget: a second return instruction
    fails the assertion of writeNSSSubRoutine, and a subroutine without blocks
    makes it read blocks[0] out of range. *)
Theorem createNSS_done (fuel : nat) (out out' : Sink) (s : SubRoutine) :
  createNSS util ncs fuel out = Done out' ->
  In s (getSubRoutines ncs) ->
  (length (returns s) <= 1)%nat /\ (1 <= length (sblocks s))%nat /\ (1 <= fuel)%nat.
Proof.
  unfold createNSS; intros H Hs.
  do 3 (apply andThen_done in H; destruct H as [? [_ H]]).
  destruct (forEach_done _ _ _ _ H s Hs) as [o [o' Hsub]].
  unfold writeNSSSubRoutine in Hsub.
  do 3 (apply andThen_done in Hsub; destruct Hsub as [? [_ Hsub]]).
  apply andThen_done in Hsub; destruct Hsub as [o1 [Hsub _]].
  destruct (Nat.leb_spec (length (returns s)) 1) as [Hret|]; [|discriminate Hsub].
  destruct (sblocks s) as [|entry blocks]; [discriminate Hsub|].
  cbn [nth_error withSome] in Hsub.
  destruct fuel; [discriminate Hsub|].
  simpl; lia.
Qed.

End NSSStatements.

Lemma nss_call_text_witness :
  exists w,
    (forall self out,
        writeNSSCall Sample.util (Sample.program true) self Sample.callBlock 1
          kBlockEdgeTypeSubRoutineCall out = self 0%nat 1%nat (out ++ w)%list)
    /\ contents w = TAB ++ EmptyString ++ "(" ++ "var0" ++ ");" ++ LF.
Proof.
  apply (nss_call_text Sample.util (Sample.program true) Sample.callBlock 1
           kBlockEdgeTypeSubRoutineCall 1%nat 0%nat 0%nat); reflexivity.
Defined.

Lemma createNSS_done_witness :
  (length (returns Sample.mainSub) <= 1)%nat
  /\ (1 <= length (sblocks Sample.mainSub))%nat /\ (1 <= 1)%nat.
Proof.
  apply (createNSS_done Sample.util (Sample.program true) 1 []
           ["// Decompiled using ncsdis"; LF ++ LF; LF ++ LF; "void main()"; " {" ++ LF; "}"]
           Sample.mainSub); [reflexivity | now left].
Defined.

Example createNSS_two_returns_sample :
  createNSS Sample.util (Sample.programWith [] [Sample.twoReturnsSub]) 5 [] = Fault.
Proof. reflexivity. Qed.

Section NSSIf.

Variable util : Util.
Variable ncs : NCSFile.

Lemma writes_optionalBody (self : BlockPtr -> nat -> Emit)
    (body : BlockPtr -> nat -> list string) (o : option BlockPtr) (n : nat) :
  (forall bp m, Writes (self bp m) (body bp m)) ->
  Writes match o with
         | Some bp => self bp n
         | None => skip
         end (optionalBody body o n).
Proof. intros H; destruct o; [apply H | apply writes_skip]. Qed.

(** X15: an IfCond control structure is written as: the indentation, if, the
    name of the first variable of the last instruction of the condition block
    in parentheses, an opening brace and a line feed; the true branch one
    level deeper; the indentation and a closing brace; for an else branch, on
    the same line, else and an opening brace, the branch one level deeper,
    the indentation and a closing brace; a line feed; and the continuation at
    the indentation of the if.  Without a condition block the writer is
    undefined. *)
Theorem writeNSSIfBlock_text (self : BlockPtr -> nat -> Emit)
    (body : BlockPtr -> nat -> list string) (control : ControlStructure) (indent : nat) :
  (forall bp m, Writes (self bp m) (body bp m)) ->
  (forall cp lastp v,
      ifCond control = Some cp ->
      back (binstructions (blockAt ncs cp)) = Some lastp ->
      nth_error (variables (instructionAt ncs lastp)) 0 = Some v ->
      exists w,
        Writes (writeNSSIfBlockWith util ncs self control indent) w
        /\ contents w
           = UString.make "009" indent ++ "if ("
             ++ formatVariableName util (variableAt ncs v) ++ ") {" ++ LF
             ++ contents (optionalBody body (ifTrue control) (indent + 1))
             ++ UString.make "009" indent ++ "}"
             ++ match ifElse control with
                | Some e =>
                    " else {" ++ LF ++ contents (body e (indent + 1)%nat)
                    ++ UString.make "009" indent ++ "}"
                | None => EmptyString
                end
             ++ LF ++ contents (optionalBody body (ifNext control) indent))
  /\ (ifCond control = None ->
      forall out, writeNSSIfBlockWith util ncs self control indent out = Fault).
Proof.
  intros Hself; split.
  - intros cp lastp v Hcond Hlast Hvar.
    exists (ifStatement util body control indent (variableAt ncs v)); split.
    + unfold writeNSSIfBlockWith, ifStatement, variableOf.
      rewrite Hcond; cbn [withSome]; rewrite Hlast; cbn [withSome].
      rewrite Hvar; cbn [withSome].
      apply (writes_andThen _ _ _ _ (writes_writeNSSIndent indent)).
      do 3 (apply (writes_andThen _ _ [_] _ (writes_write _))).
      apply (writes_andThen _ _ _ _ (writes_optionalBody self body _ _ Hself)).
      apply (writes_andThen _ _ _ _ (writes_writeNSSIndent indent)).
      apply (writes_andThen _ _ [_] _ (writes_write _)).
      apply writes_andThen.
      * destruct (ifElse control) as [e|]; [|apply writes_skip].
        apply (writes_andThen _ _ [_] _ (writes_write _)).
        apply (writes_andThen _ _ _ _ (Hself e _)).
        apply (writes_andThen _ _ _ [_] (writes_writeNSSIndent indent)), writes_write.
      * apply (writes_andThen _ _ [_] _ (writes_write _)).
        now apply writes_optionalBody.
    + unfold ifStatement.
      rewrite contents_app, contents_tabs, !contents_cons, contents_app.
      rewrite contents_app, contents_tabs, contents_cons, contents_app, contents_cons.
      destruct (ifElse control) as [e|].
      * rewrite contents_cons, contents_app, contents_app, contents_tabs.
        cbn [contents String.concat]; rewrite ?append_assoc; reflexivity.
      * reflexivity.
  - intros Hnull; unfold writeNSSIfBlockWith; rewrite Hnull.
    apply andThen_fault_r; [unfold writeNSSIndent, forUpTo; bounded | reflexivity].
Qed.

End NSSIf.

Lemma writeNSSIfBlock_text_witness :
  (exists w,
      Writes (writeNSSIfBlockWith Sample.util (Sample.program true)
                (fun _ m => writeNSSIndent m ;; write ("x;" ++ LF)) Sample.ifElseControl 1) w
      /\ contents w
         = TAB ++ "if (var0) {" ++ LF ++ TAB ++ TAB ++ "x;" ++ LF ++ TAB ++ "} else {" ++ LF
           ++ TAB ++ TAB ++ "x;" ++ LF ++ TAB ++ "}" ++ LF)
  /\ forall out,
       writeNSSIfBlockWith Sample.util (Sample.program true) (fun _ _ => skip)
         Sample.returnControl 1 out = Fault.
Proof.
  split.
  - apply (proj1 (writeNSSIfBlock_text Sample.util (Sample.program true)
                    (fun _ m => writeNSSIndent m ;; write ("x;" ++ LF))
                    (fun _ m => app (tabs m) ["x;" ++ LF])
                    Sample.ifElseControl 1
                    (fun bp m => writes_andThen _ _ _ _ (writes_writeNSSIndent m)
                                   (writes_write _)))
             1%nat 1%nat 0%nat); reflexivity.
  - apply (proj2 (writeNSSIfBlock_text Sample.util (Sample.program true)
                    (fun _ _ => skip) (fun _ _ => []) Sample.returnControl 1
                    (fun _ _ => writes_skip))).
    reflexivity.
Defined.

(** *** Further properties: the listing *)

Lemma digitsFrom_nonempty (digit : N -> ascii) (base : N) (fuel : nat) :
  forall n acc, UString.empty acc = false ->
                UString.empty (UString.digitsFrom digit base fuel n acc) = false.
Proof.
  induction fuel as [|fuel IH]; intros n acc H; simpl; [exact H|].
  destruct (n / base =? 0)%N; [reflexivity | now apply IH].
Qed.

Lemma composeString_nonempty (n : N) : UString.empty (composeString n) = false.
Proof.
  unfold composeString, UString.digits.
  change (UString.digitsFrom UString.decDigit 10 64 n EmptyString)
    with (if (n / 10 =? 0)%N then String (UString.decDigit (n mod 10)) EmptyString
          else UString.digitsFrom UString.decDigit 10 63 (n / 10)
                 (String (UString.decDigit (n mod 10)) EmptyString)).
  destruct (n / 10 =? 0)%N; [reflexivity | now apply digitsFrom_nonempty].
Qed.

Lemma length_flat_map_filter {A B : Type} (keep : A -> bool) (f : A -> B) (l : list A) :
  length (flat_map (fun x => if keep x then [f x] else []) l) = length (filter keep l).
Proof.
  induction l as [|x l IH]; [reflexivity|]; cbn [flat_map filter].
  destruct (keep x); simpl; now rewrite IH.
Qed.

Section Listing.

Variable util : Util.
Variable ncs : NCSFile.

(** X16: an instruction without follower is followed by the separator: in the
    listing its disassembly line is directly followed by the line of dashes,
    in the assembly by an empty line, whatever printStack is. *)
Theorem separator_after_terminator (printStack : bool) (i : Instruction) :
  In i (getInstructions ncs) ->
  follower i = None ->
  (exists before after,
      Writes (createListing util ncs printStack)
        (before ++ [listingLine util ncs i; listingSeparator] ++ after)%list)
  /\ (exists before after,
         Writes (createAssembly util ncs printStack)
           (before ++ [assemblyLine util ncs i; LF] ++ after)%list).
Proof.
  intros Hin Hfollower.
  destruct (in_split _ _ Hin) as [l1 [l2 Hsplit]].
  split.
  - eexists (banner ncs :: engineTypeLegend util ncs ++ flat_map _ l1
             ++ jumpLabelLine util ncs i
             ++ (if hasStackAnalysis ncs && printStack
                 then writesOf (writeStack util ncs i 36) else []))%list.
    eexists (flat_map _ l2).
    eapply writes_eq; [apply writes_createListing|].
    rewrite Hsplit, flat_map_app; cbn [flat_map]; rewrite Hfollower.
    cbn [app]; repeat rewrite <- app_assoc; reflexivity.
  - eexists (banner ncs :: engineTypeLegend util ncs ++ flat_map _ l1
             ++ jumpLabelLine util ncs i
             ++ (if hasStackAnalysis ncs && printStack
                 then writesOf (writeStack util ncs i 0) else []))%list.
    eexists (flat_map _ l2).
    eapply writes_eq; [apply writes_createAssembly|].
    rewrite Hsplit, flat_map_app; cbn [flat_map]; rewrite Hfollower.
    cbn [app]; repeat rewrite <- app_assoc; reflexivity.
Qed.

(** X17: for a game without engine types the legend is not written at all; for
    a game with engine types it consists of its heading, one line for every
    engine type that has a name (none, if no type has one), and an empty
    line. *)
Theorem engine_type_legend :
  let count := getEngineTypeCount util (getGame ncs) in
  (count = 0%nat -> Writes (writeEngineTypes util ncs) [])
  /\ ((0 < count)%nat ->
      exists lines,
        Writes (writeEngineTypes util ncs) (("; Engine types:" ++ LF) :: app lines [LF])
        /\ length lines
           = length (filter (fun i => negb (UString.empty
                                              (getEngineTypeName util (getGame ncs) i)))
                            (seq 0 count))).
Proof.
  intros count; split; intros Hcount.
  - eapply writes_eq; [apply writes_writeEngineTypes|].
    unfold engineTypeLegend; fold count; now rewrite Hcount.
  - eexists; split.
    + eapply writes_eq; [apply writes_writeEngineTypes|].
      unfold engineTypeLegend; fold count.
      destruct (Nat.ltb_spec 0 count); [reflexivity | lia].
    + rewrite <- (length_flat_map_filter _
                    (fun i => "; " ++ getGenericEngineTypeName util i ++ ": "
                              ++ getEngineTypeName util (getGame ncs) i ++ LF)).
      f_equal; apply flat_map_ext; intros j.
      now destruct (UString.empty _).
Qed.

(** X18: an instruction has a signature in the listing only if the program has
    a stack analysis, the instruction is the entry of a subroutine, it has a
    block with a subroutine, this subroutine is not the start, the global or
    a store-state subroutine, and its stack analysis is finished; the
    signature is then the formatted signature of the subroutine.  An
    instruction without jump label gets no label line, with or without a
    signature. *)
Theorem getSignature_nonempty (i : Instruction) :
  (getSignature util ncs i <> EmptyString ->
   hasStackAnalysis ncs = true
   /\ addressType i = kAddressTypeSubRoutine
   /\ exists bp sp,
        block i = Some bp
        /\ subRoutine (blockAt ncs bp) = Some sp
        /\ unsignedKind (stype (subRoutineAt ncs sp)) = false
        /\ stackAnalyzeState (subRoutineAt ncs sp) = kStackAnalyzeStateFinished
        /\ getSignature util ncs i = formatSignature util (subRoutineAt ncs sp))
  /\ (formatJumpLabelName util i = EmptyString -> Writes (writeJumpLabel util ncs i) []).
Proof.
  split.
  - unfold getSignature, getSignatureSub.
    destruct (hasStackAnalysis ncs); cbn [negb]; [|congruence].
    destruct (addressType i); try congruence.
    destruct (block i) as [bp|]; [|congruence].
    destruct (subRoutine (blockAt ncs bp)) as [sp|] eqn:Esub; [|congruence].
    destruct (stype (subRoutineAt ncs sp)) eqn:Etype; try congruence.
    destruct (stackAnalyzeState (subRoutineAt ncs sp)) eqn:Estate; try congruence.
    intros _; split; [reflexivity|split; [reflexivity|]].
    exists bp, sp; rewrite Esub, Etype, Estate; repeat split.
  - intros Hname; eapply writes_eq; [apply writes_writeJumpLabel|].
    unfold jumpLabelLine; now rewrite Hname.
Qed.

Lemma siblings_fold (l : list VariablePtr) :
  forall acc, UString.empty acc = false ->
    fold_left (fun siblings sib =>
                 (if negb (UString.empty siblings) then siblings ++ "," else siblings)
                 ++ composeString (id (variableAt ncs sib))) l acc
    = String.concat ","
        (acc :: map (fun sib => composeString (id (variableAt ncs sib))) l).
Proof.
  induction l as [|sib l IH]; intros acc Hacc; [reflexivity|].
  cbn [fold_left map]; rewrite Hacc; cbn [negb].
  rewrite IH by (destruct acc; [discriminate | reflexivity]).
  change (String.concat "," (?a :: ?b :: ?r)) with (a ++ "," ++ String.concat "," (b :: r)).
  destruct l; cbn [map String.concat]; now rewrite !append_assoc.
Qed.

(** X19: the siblings of a variable are listed in a stack dump as a space and,
    in parentheses, their ids in decimal, joined by commas; a variable without
    siblings has no such list. *)
Theorem siblingList_joined (var : VariableT) :
  siblingList ncs var
  = match siblings var with
    | [] => EmptyString
    | _ :: _ =>
        " (" ++ String.concat ","
                  (map (fun sib => composeString (id (variableAt ncs sib))) (siblings var))
        ++ ")"
    end.
Proof.
  unfold siblingList; destruct (siblings var) as [|sib l]; [reflexivity|].
  cbn [fold_left UString.empty negb].
  change (EmptyString ++ ?x) with x.
  rewrite siblings_fold by apply composeString_nonempty.
  cbn [map].
  assert (E : UString.empty
                (String.concat ","
                   (composeString (id (variableAt ncs sib))
                    :: map (fun sib0 => composeString (id (variableAt ncs sib0))) l)) = false).
  { pose proof (composeString_nonempty (id (variableAt ncs sib))) as H.
    destruct l; cbn [map String.concat];
      destruct (composeString (id (variableAt ncs sib))); [discriminate | reflexivity
                                                            | discriminate | reflexivity]. }
  now rewrite E.
Qed.

(** X20: a stack dump consists of the head line with the depth, one line per
    slot of the stack in the order of the stack, and the foot line, each after
    the indentation.  The line of a slot shows the index of the slot and the
    id of its variable with the spaces before the digits, to widths 4 and 6,
    the lower-cased type name followed by spaces to width 8, the address of
    the creator in 8 hexadecimal digits, which is 00000000 for a variable
    without creator, and the list of the siblings. *)
Theorem writeStack_dump (i : Instruction) (indent : nat) :
  Writes (writeStack util ncs i indent) (stackDump util ncs i indent)
  /\ length (stackDump util ncs i indent) = (4 + 2 * length (stack i))%nat
  /\ hex8 0 = "00000000".
Proof.
  split; [|split; [|reflexivity]].
  - unfold writeStack, stackDump, forIndexed.
    apply (writes_andThen _ _ [_] _ (writes_write _)).
    apply (writes_andThen _ _ [_]); [run_format; apply writes_write|].
    apply writes_andThen.
    + apply writes_forIndexedFrom; intros s slot.
      apply (writes_andThen _ _ [_] [_] (writes_write _)).
      run_format; apply writes_write.
    + apply (writes_andThen _ _ [_] [_]); apply writes_write.
  - unfold stackDump; cbn [length]; rewrite length_app; cbn [length].
    enough (forall n, length (indexedFrom n (fun s slot =>
                                [UString.make " " indent; stackSlotLine util ncs s slot])
                                (stack i)) = (2 * length (stack i))%nat) as -> by lia.
    induction (stack i) as [|slot l IH]; intros n; [reflexivity|].
    cbn [indexedFrom length app]; rewrite IH; lia.
Qed.

End Listing.

Lemma separator_after_terminator_witness :
  (exists before after,
      Writes (createListing Sample.util (Sample.program true) true)
        (before
         ++ [listingLine Sample.util (Sample.program true) Sample.retnInstr; listingSeparator]
         ++ after)%list)
  /\ (exists before after,
         Writes (createAssembly Sample.util (Sample.program true) true)
           (before
            ++ [assemblyLine Sample.util (Sample.program true) Sample.retnInstr; LF]
            ++ after)%list).
Proof.
  apply (separator_after_terminator Sample.util (Sample.program true) true Sample.retnInstr);
    [now left | reflexivity].
Defined.

Lemma engine_type_legend_witness :
  Writes (writeEngineTypes Sample.util (Sample.program true)) []
  /\ exists lines,
       Writes (writeEngineTypes Sample.engineUtil (Sample.program true))
         (("; Engine types:" ++ LF) :: app lines [LF])
       /\ length lines = 2%nat.
Proof.
  split.
  - apply (proj1 (engine_type_legend Sample.util (Sample.program true))); reflexivity.
  - apply (proj2 (engine_type_legend Sample.engineUtil (Sample.program true))).
    simpl; lia.
Defined.

Lemma getSignature_nonempty_witness :
  (hasStackAnalysis (Sample.program true) = true
   /\ addressType Sample.entryInstr = kAddressTypeSubRoutine
   /\ exists bp sp,
        block Sample.entryInstr = Some bp
        /\ subRoutine (Sample.blockStore bp) = Some sp
        /\ unsignedKind (stype Sample.mainSub) = false
        /\ stackAnalyzeState Sample.mainSub = kStackAnalyzeStateFinished
        /\ getSignature Sample.util (Sample.program true) Sample.entryInstr
           = "void main()")
  /\ Writes (writeJumpLabel Sample.util (Sample.program true) Sample.entryInstr) [].
Proof.
  split.
  - apply (proj1 (getSignature_nonempty Sample.util (Sample.program true) Sample.entryInstr)).
    discriminate.
  - apply (proj2 (getSignature_nonempty Sample.util (Sample.program true) Sample.entryInstr)).
    reflexivity.
Defined.

Example writeStack_sample :
  writeStack Sample.util Sample.sharedProgram Sample.jsrInstr 2 []
  = Done ["  "; "; .--- Stack:    1 ---" ++ LF;
          "  "; "; |    0 -      7: int      (00000008) (7,7)" ++ LF;
          "  "; "; '--- ---------- ---" ++ LF].
Proof. reflexivity. Qed.

Example writeJumpLabel_sample :
  writeJumpLabel Sample.engineUtil (Sample.program true) Sample.entryInstr []
  = Done ["main: ; void main()" ++ LF].
Proof. reflexivity. Qed.

Lemma framed_done (e : Emit) (out out' : Sink) :
  Framed e -> e out = Done out' -> exists w, out' = (out ++ w)%list.
Proof.
  intros H E; rewrite (H out) in E.
  destruct (e []) as [w| |]; try discriminate; injection E as <-; now exists w.
Qed.

(** X21: when createDot returns, what it has appended is a whole graph: the
    opening of the digraph with its three settings first, the closing brace
    last, and the clusters and edges between them. *)
Theorem createDot_shape (util : Util) (ncs : NCSFile) (pct : bool) (out out' : Sink) :
  createDot util ncs pct out = Done out' ->
  exists middle,
    out' = (out ++ dotOpening ++ middle ++ dotClosing)%list.
Proof.
  unfold createDot; intros H.
  do 4 (apply andThen_done in H; destruct H as [? [E H]]; injection E as <-).
  apply andThen_done in H; destruct H as [o1 [E1 H]].
  apply andThen_done in H; destruct H as [o2 [E2 H]].
  injection H as <-.
  assert (F1 : Framed (writeDotClusteredBlocks util ncs pct)).
  { pose proof (framed_writeDotBlocks util ncs pct).
    unfold writeDotClusteredBlocks; framed. }
  assert (F2 : Framed (writeDotBlockEdges ncs)).
  { unfold writeDotBlockEdges, writeDotBlockEdge; framed. }
  destruct (framed_done _ _ _ F1 E1) as [w1 ->].
  destruct (framed_done _ _ _ F2 E2) as [w2 ->].
  exists (w1 ++ w2)%list; unfold writeString.
  repeat rewrite <- app_assoc; reflexivity.
Qed.

Lemma createDot_shape_witness :
  exists middle,
    writesOf (createDot Sample.util (Sample.program true) false)
    = ([] ++ dotOpening ++ middle ++ dotClosing)%list.
Proof.
  apply (createDot_shape Sample.util (Sample.program true) false []); reflexivity.
Defined.

(** *** The whole dot graph *)



Lemma flat_map_split {A B : Type} (f : A -> list B) (l : list A) (x : A) :
  In x l -> exists before after, flat_map f l = (before ++ f x ++ after)%list.
Proof.
  intros H; destruct (in_split _ _ H) as [l1 [l2 ->]].
  exists (flat_map f l1), (flat_map f l2); now rewrite flat_map_app.
Qed.

Section WholeDotGraph.

Variable util : Util.
Variable ncs : NCSFile.
Variable pct : bool.

Lemma blockWrites_statements (b : Block) :
  (1 <= length (binstructions b))%nat ->
  exists labels,
    dotLabels util ncs pct b = Some labels
    /\ length labels = calculateNodesPerBlock (length (binstructions b))
    /\ blockWrites util ncs pct b = blockStatements b labels.
Proof.
  intros Hk; destruct (dotLabels_some util ncs pct b Hk) as [labels [E Hlen]].
  exists labels; unfold blockWrites; now rewrite E.
Qed.

Lemma writes_writeDotBlocks (blocks : list BlockPtr) :
  (forall bp, In bp blocks -> (1 <= length (binstructions (blockAt ncs bp)))%nat) ->
  Writes (writeDotBlocks util ncs pct blocks)
    (separated LF (map (fun bp => blockWrites util ncs pct (blockAt ncs bp)) blocks)).
Proof.
  induction blocks as [|bp rest IH]; intros H; [apply writes_skip|].
  destruct (blockWrites_statements (blockAt ncs bp) (H bp (or_introl eq_refl)))
    as [labels [E [_ Hw]]].
  pose proof (writes_writeDotBlock util ncs pct _ labels E) as Hblock.
  rewrite <- Hw in Hblock.
  cbn [writeDotBlocks map separated].
  specialize (IH (fun q Hq => H q (or_intror Hq))).
  destruct rest as [|bp2 rest].
  - eapply writes_eq.
    + apply (writes_andThen _ _ _ [] Hblock).
      apply (writes_andThen _ _ [] [] writes_skip), writes_skip.
    + now rewrite !app_nil_r.
  - apply (writes_andThen _ _ _ _ Hblock).
    apply (writes_andThen _ _ [_] _ (writes_write _)), IH.
Qed.

Lemma writeDotBlocks_done (blocks : list BlockPtr) :
  forall out out',
    writeDotBlocks util ncs pct blocks out = Done out' ->
    forall bp, In bp blocks -> (1 <= length (binstructions (blockAt ncs bp)))%nat.
Proof.
  induction blocks as [|bp0 rest IH]; intros out out' H bp Hin; [contradiction|].
  cbn [writeDotBlocks] in H.
  apply andThen_done in H; destruct H as [o1 [H1 H]].
  apply andThen_done in H; destruct H as [o2 [_ H]].
  destruct Hin as [<-|Hin]; [now apply (writeDotBlock_done util ncs pct _ _ _ H1)|].
  now apply (IH _ _ H).
Qed.

Lemma writes_writeDotClusteredBlocks :
  (forall s bp, In s (getSubRoutines ncs) -> hasEntryCode ncs s = true ->
                In bp (sblocks s) -> (1 <= length (binstructions (blockAt ncs bp)))%nat) ->
  Writes (writeDotClusteredBlocks util ncs pct)
    (flat_map (clusterWrites util ncs pct) (getSubRoutines ncs)).
Proof.
  intros H; unfold writeDotClusteredBlocks.
  apply writes_forEach; intros s Hs.
  specialize (H s); unfold clusterWrites; unfold hasEntryCode in *.
  destruct (sblocks s) as [|front rest] eqn:Es; [apply writes_skip|].
  destruct (length (binstructions (blockAt ncs front)) =? 0)%nat; cbn [negb] in *;
    [apply writes_skip|].
  cbv zeta; fold (clusterLabel util ncs s); run_format.
  change (?a :: ?b :: ?r) with ([a] ++ ([b] ++ r))%list.
  apply writes_andThen; [apply writes_write|].
  apply writes_andThen; [apply writes_write|].
  apply writes_andThen; [|apply writes_write].
  apply writes_writeDotBlocks; intros bp Hbp; now apply (H bp Hs).
Qed.

Lemma writes_writeDotBlockEdge (b : Block) (i : nat) (cp : BlockPtr) (t : BlockEdgeType) :
  nth_error (children b) i = Some cp ->
  nth_error (childrenTypes b) i = Some t ->
  Writes (writeDotBlockEdge ncs b i) (edgeStatement b (blockAt ncs cp) t).
Proof.
  intros Hc Ht; unfold writeDotBlockEdge, edgeStatement; rewrite Hc, Ht; cbn [withSome].
  rewrite edgeAttr_eq; run_format.
  apply (writes_andThen _ _ [_] [_]); [|apply writes_write].
  eapply writes_eq; [apply writes_write|].
  unfold dotName; cbn [append]; rewrite ?append_assoc; reflexivity.
Qed.

Lemma writes_writeDotBlockEdges :
  (forall b, In b (getBlocks ncs) -> length (children b) = length (childrenTypes b)) ->
  Writes (writeDotBlockEdges ncs) (flat_map (edgeWrites ncs) (getBlocks ncs)).
Proof.
  intros Hpair; unfold writeDotBlockEdges.
  apply writes_forEach; intros b Hb.
  rewrite (Hpair b Hb), Nat.eqb_refl, <- (Hpair b Hb).
  unfold edgeWrites; apply writes_forEach; intros i Hi; apply in_seq in Hi.
  destruct (nth_error (children b) i) as [cp|] eqn:Hc;
    [|apply nth_error_None in Hc; lia].
  destruct (nth_error (childrenTypes b) i) as [t|] eqn:Ht;
    [|apply nth_error_None in Ht; rewrite <- (Hpair b Hb) in Ht; lia].
  now apply writes_writeDotBlockEdge.
Qed.

(** On a program on which it is defined, createDot writes the dot graph. *)
Lemma writes_createDot :
  dotDefined ncs -> Writes (createDot util ncs pct) (dotGraph util ncs pct).
Proof.
  intros [Hblocks Hpair]; unfold createDot, dotGraph, dotOpening, dotClosing.
  change [?a; ?b; ?c; ?d] with ([a] ++ [b] ++ [c] ++ [d])%list.
  rewrite <- !app_assoc.
  do 4 (apply writes_andThen; [apply writes_write|]).
  apply writes_andThen; [now apply writes_writeDotClusteredBlocks|].
  apply writes_andThen; [now apply writes_writeDotBlockEdges | apply writes_write].
Qed.

(** createDot returns on no other program. *)
Lemma createDot_done_defined (out out' : Sink) :
  createDot util ncs pct out = Done out' -> dotDefined ncs.
Proof.
  unfold createDot; intros H.
  do 4 (apply andThen_done in H; destruct H as [? [_ H]]).
  apply andThen_done in H; destruct H as [o1 [Hclusters H]].
  apply andThen_done in H; destruct H as [o2 [Hedges _]].
  split.
  - intros s bp Hs Hentry Hbp.
    destruct (forEach_done _ _ _ _ Hclusters s Hs) as [o [o' Hbody]].
    unfold hasEntryCode in Hentry.
    destruct (sblocks s) as [|front rest] eqn:Es; [discriminate|].
    apply negb_true_iff in Hentry; rewrite Hentry in Hbody; cbv zeta in Hbody.
    do 2 (apply andThen_done in Hbody; destruct Hbody as [? [_ Hbody]]).
    apply andThen_done in Hbody; destruct Hbody as [o3 [Hbody _]].
    now apply (writeDotBlocks_done _ _ _ Hbody).
  - intros b Hb.
    destruct (forEach_done _ _ _ _ Hedges b Hb) as [o [o' Hbody]].
    destruct (Nat.eqb_spec (length (children b)) (length (childrenTypes b)));
      [assumption | discriminate].
Qed.

End WholeDotGraph.










Section DotGraphFilters.

Variable util : Util.
Variable ncs : NCSFile.
Variable pct : bool.










(** The edge of a block of the program to its i-th child is part of the dot
    graph. *)
Lemma dotGraph_edge (b : Block) (i : nat) (cp : BlockPtr) (t : BlockEdgeType) :
  In b (getBlocks ncs) ->
  nth_error (children b) i = Some cp ->
  nth_error (childrenTypes b) i = Some t ->
  exists before after,
    dotGraph util ncs pct = (before ++ edgeStatement b (blockAt ncs cp) t ++ after)%list.
Proof.
  intros Hb Hc Ht; unfold dotGraph.
  destruct (flat_map_split (edgeWrites ncs) _ b Hb) as [e1 [e2 ->]].
  unfold edgeWrites.
  destruct (flat_map_split
              (fun j => match nth_error (children b) j, nth_error (childrenTypes b) j with
                        | Some cp, Some t => edgeStatement b (blockAt ncs cp) t
                        | _, _ => []
                        end) (seq 0 (length (children b))) i) as [f1 [f2 ->]].
  { apply in_seq; split; [lia|]; cbn; apply nth_error_Some; now rewrite Hc. }
  rewrite Hc, Ht.
  eexists (dotOpening ++ flat_map (clusterWrites util ncs pct) (getSubRoutines ncs)
           ++ e1 ++ f1)%list, _.
  repeat rewrite <- app_assoc; reflexivity.
Qed.

End DotGraphFilters.



(** *** The nodes and edges that createDot writes *)










(** C2: whenever createDot returns, it has written, for every block of the
    program and every child of the block, the edge from the last node of the
    block to the first node of the child, with the attributes
    [ color=<colour of the edge kind>, then style=bold if the address of the
    child is lower than that of the block, then constraint=false if the block
    and the child belong to different subroutines ]; the colours are blue,
    green, red, cyan, orange, purple and gray40; a ConditionalFalse child at
    a lower address in the same subroutine gets [ color=red style=bold ].
    createDot returns on every program on which it is defined. *)
Theorem createDot_edge_attributes (util : Util) (ncs : NCSFile) (pct : bool)
    (b : Block) (i : nat) (cp : BlockPtr) (t : BlockEdgeType) :
  In b (getBlocks ncs) ->
  nth_error (children b) i = Some cp ->
  nth_error (childrenTypes b) i = Some t ->
  let child := blockAt ncs cp in
  let backward := (baddress child <? baddress b)%N in
  let crossing := negb (ptrEqb (subRoutine b) (subRoutine child)) in
  let head := "  b" ++ hex8 (baddress b) ++ "_"
              ++ composeString
                   (sizeSub (N.of_nat (calculateNodesPerBlock (length (binstructions b)))) 1)
              ++ " -> " ++ dotName child 0 in
  let attributes := " [ " ++ edgeAttributes t backward crossing ++ " ]" ++ LF in
  (forall out out',
      createDot util ncs pct out = Done out' ->
      exists before after, out' = (out ++ before ++ [head; attributes] ++ after)%list)
  /\ (dotDefined ncs -> Writes (createDot util ncs pct) (dotGraph util ncs pct))
  /\ edgeAttributes t backward crossing
     = "color=" ++ colorName t
       ++ (if backward then " style=bold" else EmptyString)
       ++ (if crossing then " constraint=false" else EmptyString)
  /\ (backward = true <-> (baddress child < baddress b)%N)
  /\ (crossing = true <-> subRoutine b <> subRoutine child)
  /\ (t = kBlockEdgeTypeConditionalFalse ->
      (baddress child < baddress b)%N -> subRoutine b = subRoutine child ->
      attributes = " [ color=red style=bold ]" ++ LF)
  /\ colorName kBlockEdgeTypeUnconditional = "blue"
  /\ colorName kBlockEdgeTypeConditionalTrue = "green"
  /\ colorName kBlockEdgeTypeConditionalFalse = "red"
  /\ colorName kBlockEdgeTypeSubRoutineCall = "cyan"
  /\ colorName kBlockEdgeTypeSubRoutineTail = "orange"
  /\ colorName kBlockEdgeTypeSubRoutineStore = "purple"
  /\ colorName kBlockEdgeTypeDead = "gray40".
Proof.
  intros Hb Hc Ht child backward crossing head attributes.
  assert (Hback : backward = true <-> (baddress child < baddress b)%N)
    by apply N.ltb_lt.
  assert (Hcross : crossing = true <-> subRoutine b <> subRoutine child).
  { unfold crossing; rewrite negb_true_iff, <- not_true_iff_false, ptrEqb_eq; tauto. }
  split.
  { intros out out' Hdone.
    pose proof (writes_createDot util ncs pct (createDot_done_defined _ _ _ _ _ Hdone))
      as Hw.
    rewrite (Hw out) in Hdone; injection Hdone as <-.
    destruct (dotGraph_edge util ncs pct b i cp t Hb Hc Ht) as [before [after ->]].
    now exists before, after. }
  split; [apply writes_createDot|].
  split; [reflexivity|].
  split; [exact Hback|].
  split; [exact Hcross|].
  split; [|repeat split].
  intros -> Hlt Hsame; unfold attributes.
  rewrite (proj2 Hback Hlt).
  destruct crossing; [now apply Hcross in Hsame | reflexivity].
Qed.

Lemma createDot_edge_attributes_witness :
  exists before after,
    writesOf (createDot Sample.util Sample.wideProgram true)
    = ([] ++ before
       ++ ["  b00000008_0 -> b00000000_0"; (" [ color=red style=bold ]" ++ LF)%string]
       ++ after)%list.
Proof.
  apply (createDot_edge_attributes Sample.util Sample.wideProgram true Sample.callBlock
           0%nat 0%nat kBlockEdgeTypeConditionalFalse);
    [right; left; reflexivity | reflexivity | reflexivity | reflexivity].
Defined.


(** *** Return statements *)




Section NSSReturns.

Variable util : Util.
Variable ncs : NCSFile.












End NSSReturns.



Section NSSSubRoutines.

Variable util : Util.
Variable ncs : NCSFile.



End NSSSubRoutines.



